(** * postgres-mcp-server: request handlers and the write gate

    A shallow embedding of the two server programs of the repository,
    [src/index.ts] (server version 0.1.0, module [V010]) and the program
    of server version 1.0.0 (the one the README describes, module
    [V100]), and the properties of their four request handlers.

    JavaScript strings are sequences of UTF-16 code units; the database
    and the runtime's [URL] and [JSON] objects are parameters of the
    handlers. *)

From Stdlib Require Import String Ascii NArith List Bool Lia.
From stdpp Require Import base option list sorting.

Set Default Proof Using "Type".
Local Set Warnings "-register-all".
Local Open Scope N_scope.

(** ** JavaScript strings *)

(** A string value is the list of its UTF-16 code units. *)
Abbreviation jsstring := (list N).

(** The code units of an ASCII literal. *)
Definition js (s : string) : jsstring :=
  map N_of_ascii (list_ascii_of_string s).
Arguments js s%_string.

(** ECMAScript [WhiteSpace]: TAB, VT, FF, ZWNBSP and the code points of
    general category Zs. *)
Definition isWhiteSpace (c : N) : bool :=
  (c =? 0x09) || (c =? 0x0B) || (c =? 0x0C) || (c =? 0xFEFF) ||
  (c =? 0x20) || (c =? 0xA0) || (c =? 0x1680) ||
  ((0x2000 <=? c) && (c <=? 0x200A)) ||
  (c =? 0x202F) || (c =? 0x205F) || (c =? 0x3000).

(** ECMAScript [LineTerminator]: LF, CR, LS, PS. *)
Definition isLineTerminator (c : N) : bool :=
  (c =? 0x0A) || (c =? 0x0D) || (c =? 0x2028) || (c =? 0x2029).

(** What [String.prototype.trim] strips and what the regular expression
    class [\s] matches: white space and line terminators. *)
Definition isStrWhiteSpaceChar (c : N) : bool :=
  isWhiteSpace c || isLineTerminator c.

Fixpoint trimStart (s : jsstring) : jsstring :=
  match s with
  | c :: t => if isStrWhiteSpaceChar c then trimStart t else s
  | [] => []
  end.

Definition trimEnd (s : jsstring) : jsstring := rev (trimStart (rev s)).

(** [String.prototype.trim]. *)
Definition trim (s : jsstring) : jsstring := trimEnd (trimStart s).

(** [String.prototype.toLowerCase], one code unit at a time.  The ASCII
    capitals go to their small letters.  Outside ASCII the Unicode
    mapping produces an ASCII code unit for two characters only, U+0130
    (to "i" followed by U+0307) and U+212A KELVIN SIGN (to "k"); both are
    written out.  Every other code unit above 127 is mapped by Unicode to
    code units above 127 again and is kept as it is here: the handlers
    only compare the result with ASCII keywords. *)
Definition lowerCaseUnit (c : N) : jsstring :=
  if (0x41 <=? c) && (c <=? 0x5A) then [c + 0x20]
  else if c =? 0x130 then [0x69; 0x307]
  else if c =? 0x212A then [0x6B]
  else [c].

Definition toLowerCase (s : jsstring) : jsstring :=
  flat_map lowerCaseUnit s.

(** [String.prototype.startsWith]. *)
Fixpoint startsWith (s p : jsstring) {struct p} : bool :=
  match p, s with
  | [], _ => true
  | a :: p', b :: s' => (a =? b) && startsWith s' p'
  | _ :: _, [] => false
  end.

(** [Array.prototype.includes] on an array of strings. *)
Definition includes (l : list jsstring) (x : jsstring) : bool :=
  bool_decide (x ∈ l).

(** ** Regular expressions

    The three regular expression literals of the sources use literal
    characters, the classes [\s] and [.], alternation, the greedy
    quantifiers [*] and [+] on a class, and the assertions [^] and [$].
    A pattern is matched at the start of the input (all three literals
    begin with [^] and carry no [m] flag); the matcher returns the
    remainders of the input after each way of matching, in the order the
    backtracking matcher of ECMAScript tries them. *)

Inductive regex : Type :=
| Chr (c : N)                (* a pattern character *)
| Cls (p : N -> bool)        (* a class of characters *)
| Rep (p : N -> bool)        (* a class under greedy [*] *)
| Cat (r1 r2 : regex)
| Alt (r1 r2 : regex)
| Eps
| Eos.                       (* [$] without the [m] flag *)

(** The class [\s] and the class [.] (no [s] flag: any unit except a line
    terminator). *)
Definition re_s : N -> bool := isStrWhiteSpaceChar.
Definition re_dot : N -> bool := fun c => negb (isLineTerminator c).

(** [Canonicalize] of a pattern or input unit under the [i] flag without
    the [u] flag: the upper-case form when that is a single code unit,
    except that a unit above 127 is never folded to an ASCII one.  A unit
    above 127 is kept here; it folds to units above 127 only, and the
    patterns of the sources are ASCII. *)
Definition canonicalize (ignoreCase : bool) (c : N) : N :=
  if ignoreCase && (0x61 <=? c) && (c <=? 0x7A) then c - 0x20 else c.

Fixpoint rep_class (p : N -> bool) (s : jsstring) : list jsstring :=
  match s with
  | c :: t => if p c then rep_class p t ++ [s] else [s]
  | [] => [[]]
  end.

Fixpoint rmatch (ic : bool) (r : regex) (s : jsstring) : list jsstring :=
  match r with
  | Chr c =>
      match s with
      | d :: t => if canonicalize ic c =? canonicalize ic d then [t] else []
      | [] => []
      end
  | Cls p => match s with d :: t => if p d then [t] else [] | [] => [] end
  | Rep p => rep_class p s
  | Cat r1 r2 => flat_map (rmatch ic r2) (rmatch ic r1 s)
  | Alt r1 r2 => rmatch ic r1 s ++ rmatch ic r2 s
  | Eps => [s]
  | Eos => match s with [] => [[]] | _ => [] end
  end.

(** The pattern of a literal text and the alternation of several
    patterns. *)
Definition re_lit (l : jsstring) : regex := fold_right (fun c r => Cat (Chr c) r) Eps l.
Definition re_alt (rs : list regex) : regex :=
  match rs with
  | [] => Cls (fun _ => false)
  | r :: rs' => fold_left Alt rs' r
  end.
Definition re_plus (p : N -> bool) : regex := Cat (Cls p) (Rep p).

Definition nonempty {A} (l : list A) : bool :=
  match l with [] => false | _ :: _ => true end.

(** [RegExp.prototype.test] for a pattern that begins with [^]. *)
Definition regex_test (ic : bool) (r : regex) (s : jsstring) : bool :=
  nonempty (rmatch ic r s).

(** [String.prototype.match] for a pattern [^pre(grp)post] with one
    capture group: the text captured by the group in the first successful
    match, [None] when the pattern does not match. *)
Definition regex_capture (ic : bool) (pre grp post : regex) (s : jsstring)
  : option jsstring :=
  head (flat_map (fun s1 =>
          flat_map (fun s2 =>
            if nonempty (rmatch ic post s2)
            then [take (length s1 - length s2) s1]
            else []) (rmatch ic grp s1))
        (rmatch ic pre s)).

(** [String.prototype.replace] of the first match of a pattern that
    begins with [^] by the empty string. *)
Definition regex_remove (ic : bool) (r : regex) (s : jsstring) : jsstring :=
  match rmatch ic r s with
  | [] => s
  | rest :: _ => rest
  end.

(** ** Values exchanged with the client *)

(** A JSON value as the protocol layer hands it to a handler.  The fields
    of an object have distinct keys. *)
Inductive JSON : Type :=
| JNull
| JBool (b : bool)
| JNumber (literal : jsstring)
| JString (s : jsstring)
| JArray (items : list JSON)
| JObject (fields : list (jsstring * JSON)).

Fixpoint property (key : jsstring) (fields : list (jsstring * JSON)) : option JSON :=
  match fields with
  | (k, v) :: rest => if bool_decide (k = key) then Some v else property key rest
  | [] => None
  end.

(** What a handler can throw. *)
Inductive Exn : Type :=
| Error (message : jsstring)           (* [new Error(...)] *)
| PostgresError (message : jsstring)   (* a rejected query *)
| ZodError (message : jsstring)        (* a failed [parse] *)
| TypeError (message : jsstring).      (* a failed [new URL] *)

(** [error.message]. *)
Definition message (e : Exn) : jsstring :=
  match e with
  | Error m | PostgresError m | ZodError m | TypeError m => m
  end.

Record Resource : Type := {
  res_uri : jsstring;
  res_name : jsstring;
  res_description : jsstring;
  res_mimeType : jsstring }.

Record ResourceContents : Type := {
  rc_uri : jsstring;
  rc_mimeType : jsstring;
  rc_text : jsstring }.

Record TextContent : Type := {
  tc_type : jsstring;
  tc_text : jsstring }.

(** The result of a tool call; [isError] is [None] when the property is
    absent from the object the handler returns. *)
Record CallToolResult : Type := {
  content : list TextContent;
  isError : option bool }.

Record InputProperty : Type := {
  prop_name : jsstring;
  prop_type : jsstring;
  prop_description : jsstring }.

Record Tool : Type := {
  tool_name : jsstring;
  tool_description : jsstring;
  tool_properties : list InputProperty;
  tool_required : list jsstring }.

(** The two getters of a [URL] object the handlers read. *)
Record URL : Type := {
  protocol : jsstring;
  pathname : jsstring }.

(** ** The constructor [new URL]

    The handlers take [new URL] from their runtime.  [whatwg_URL] is the
    parser of the URL Standard for an input without base URL, as far as
    the getters [protocol] and [pathname] need it, for a scheme that is
    not special.  Two corners are not transcribed: for the six special
    schemes the host and the path are not parsed (the handler of
    [src/index.ts] rejects every such URL by its protocol), and the
    address inside a bracketed host is not checked. *)

Definition isAsciiAlpha (c : N) : bool :=
  ((0x41 <=? c) && (c <=? 0x5A)) || ((0x61 <=? c) && (c <=? 0x7A)).
Definition isAsciiDigit (c : N) : bool := (0x30 <=? c) && (c <=? 0x39).
Definition asciiLower (c : N) : N :=
  if (0x41 <=? c) && (c <=? 0x5A) then c + 0x20 else c.
Definition oneOf (l : list N) (c : N) : bool := existsb (N.eqb c) l.

(** The text before the first unit in [p], and the text from that unit
    on. *)
Fixpoint break_at (p : N -> bool) (s : jsstring) : jsstring * jsstring :=
  match s with
  | c :: t => if p c then ([], s)
              else let (a, b) := break_at p t in (c :: a, b)
  | [] => ([], [])
  end.

Fixpoint split_on (sep : N) (s : jsstring) : list jsstring :=
  match s with
  | c :: t =>
      if c =? sep then [] :: split_on sep t
      else match split_on sep t with
           | h :: r => (c :: h) :: r
           | [] => [[c]]
           end
  | [] => [[]]
  end.

(** The code points of a string (a surrogate pair is one code point). *)
Fixpoint codePoints (s : jsstring) : list N :=
  match s with
  | hi :: t =>
      match t with
      | lo :: t' =>
          if (0xD800 <=? hi) && (hi <=? 0xDBFF) && (0xDC00 <=? lo) && (lo <=? 0xDFFF)
          then (0x10000 + (hi - 0xD800) * 0x400 + (lo - 0xDC00)) :: codePoints t'
          else hi :: codePoints t
      | [] => [hi]
      end
  | [] => []
  end.

(** UTF-8; a lone surrogate is encoded as U+FFFD. *)
Definition utf8 (cp : N) : list N :=
  let cp := if (0xD800 <=? cp) && (cp <=? 0xDFFF) then 0xFFFD else cp in
  if cp <? 0x80 then [cp]
  else if cp <? 0x800 then [0xC0 + cp / 0x40; 0x80 + cp mod 0x40]
  else if cp <? 0x10000 then
    [0xE0 + cp / 0x1000; 0x80 + (cp / 0x40) mod 0x40; 0x80 + cp mod 0x40]
  else
    [0xF0 + cp / 0x40000; 0x80 + (cp / 0x1000) mod 0x40;
     0x80 + (cp / 0x40) mod 0x40; 0x80 + cp mod 0x40].

Definition hexDigit (n : N) : N := if n <? 10 then 0x30 + n else 0x41 + (n - 10).
Definition percentByte (b : N) : jsstring := [0x25; hexDigit (b / 16); hexDigit (b mod 16)].
Definition percentEncodeAfter (inSet : N -> bool) (cp : N) : jsstring :=
  if inSet cp then flat_map percentByte (utf8 cp) else [cp].
Definition percentEncode (inSet : N -> bool) (s : jsstring) : jsstring :=
  flat_map (percentEncodeAfter inSet) (codePoints s).

Definition c0ControlSet (c : N) : bool := (c <? 0x20) || (0x7E <? c).
Definition querySet (c : N) : bool :=
  c0ControlSet c || oneOf [0x20; 0x22; 0x23; 0x3C; 0x3E] c.
Definition pathSet (c : N) : bool :=
  querySet c || oneOf [0x3F; 0x5E; 0x60; 0x7B; 0x7D] c.

Definition isSingleDot (buffer : jsstring) : bool :=
  let b := asciiLower <$> buffer in
  bool_decide (b = js ".") || bool_decide (b = js "%2e").
Definition isDoubleDot (buffer : jsstring) : bool :=
  let b := asciiLower <$> buffer in
  bool_decide (b = js "..") || bool_decide (b = js ".%2e") ||
  bool_decide (b = js "%2e.") || bool_decide (b = js "%2e%2e").

(** The path state, one segment of the input at a time; the last segment
    is the one not followed by a slash. *)
Fixpoint path_state (segments path : list jsstring) : list jsstring :=
  match segments with
  | seg :: rest =>
      let buffer := percentEncode pathSet seg in
      let last := match rest with [] => true | _ :: _ => false end in
      path_state rest
        (if isDoubleDot buffer then
           if last then removelast path ++ [[]] else removelast path
         else if isSingleDot buffer then
           if last then path ++ [[]] else path
         else path ++ [buffer])
  | [] => path
  end.

(** The [pathname] of the path that follows a slash: the input up to the
    query or the fragment is cut at its slashes, and each segment of the
    resulting path is written after a slash. *)
Definition pathname_after_slash (s : jsstring) : jsstring :=
  flat_map (fun seg => 0x2F :: seg)
    (path_state (split_on 0x2F (break_at (oneOf [0x3F; 0x23]) s).1) []).

(** The [pathname] of an opaque path. *)
Fixpoint opaque_path (cps : list N) : jsstring :=
  match cps with
  | c :: t =>
      if oneOf [0x3F; 0x23] c then []
      else (if c =? 0x20 then
              match t with
              | n :: _ => if oneOf [0x3F; 0x23] n then js "%20" else [c]
              | [] => [c]
              end
            else percentEncodeAfter c0ControlSet c) ++ opaque_path t
  | [] => []
  end.

(** The scheme state: letters, digits, [+], [-] and [.] after a letter,
    up to a colon. *)
Fixpoint scheme_rest (s : jsstring) : option (jsstring * jsstring) :=
  match s with
  | c :: t =>
      if c =? 0x3A then Some ([], t)
      else if isAsciiAlpha c || isAsciiDigit c || oneOf [0x2B; 0x2D; 0x2E] c then
        match scheme_rest t with
        | Some (sch, r) => Some (asciiLower c :: sch, r)
        | None => None
        end
      else None
  | [] => None
  end.

Definition scheme_state (s : jsstring) : option (jsstring * jsstring) :=
  match s with
  | c :: _ => if isAsciiAlpha c then scheme_rest s else None
  | [] => None
  end.

Definition isSpecial (scheme : jsstring) : bool :=
  bool_decide (scheme ∈ [js "ftp"; js "file"; js "http"; js "https"; js "ws"; js "wss"]).

Definition forbiddenHostCodePoint : N -> bool :=
  oneOf [0x00; 0x09; 0x0A; 0x0D; 0x20; 0x23; 0x2F; 0x3A; 0x3C; 0x3E; 0x3F;
         0x40; 0x5B; 0x5C; 0x5D; 0x5E; 0x7C].

(** The host state: the host ends at the first colon outside brackets;
    what follows the colon is the port. *)
Fixpoint host_port (inside : bool) (s : jsstring) : jsstring * option jsstring :=
  match s with
  | c :: t =>
      if (c =? 0x3A) && negb inside then ([], Some t)
      else
        let inside' := if c =? 0x5B then true
                       else if c =? 0x5D then false else inside in
        let (h, p) := host_port inside' t in (c :: h, p)
  | [] => ([], None)
  end.

Definition opaque_host_ok (host : jsstring) : bool :=
  match host with
  | 0x5B :: _ => bool_decide (last host = Some 0x5D)
  | _ => forallb (fun c => negb (forbiddenHostCodePoint c)) host
  end.

Definition port_ok (digits : jsstring) : bool :=
  forallb isAsciiDigit digits &&
  (fold_left (fun n d => 10 * n + (d - 0x30)) digits 0 <=? 65535).

(** The authority of a URL whose scheme is not special: credentials up
    to the last [@], then host and port. *)
Definition authority_ok (authority : jsstring) : bool :=
  let (after_at, upto_at) := break_at (N.eqb 0x40) (rev authority) in
  let hostport := rev after_at in
  let credentials := match upto_at with [] => false | _ :: _ => true end in
  if credentials && bool_decide (hostport = []) then false
  else
    match host_port false hostport with
    | (host, Some port) =>
        negb (bool_decide (host = [])) && opaque_host_ok host && port_ok port
    | (host, None) => opaque_host_ok host
    end.

(** Leading and trailing C0 controls and spaces are stripped, and every
    tab and newline is removed, before the input is parsed. *)
Fixpoint strip_start (s : jsstring) : jsstring :=
  match s with
  | c :: t => if c <=? 0x20 then strip_start t else s
  | [] => []
  end.

Definition preprocess (input : jsstring) : jsstring :=
  filter (fun c => negb (oneOf [0x09; 0x0A; 0x0D] c) = true)
    (rev (strip_start (rev (strip_start input)))).

Definition whatwg_URL (input : jsstring) : Exn + URL :=
  match scheme_state (preprocess input) with
  | None => inl (TypeError (js "Invalid URL"))
  | Some (scheme, rest) =>
      let url := Build_URL (scheme ++ js ":") in
      if isSpecial scheme then inr (url (js "/"))
      else
        match rest with
        | 0x2F :: 0x2F :: rest2 =>
            let (authority, rest3) := break_at (oneOf [0x2F; 0x3F; 0x23]) rest2 in
            if authority_ok authority then
              match rest3 with
              | 0x2F :: p => inr (url (pathname_after_slash p))
              | _ => inr (url [])
              end
            else inl (TypeError (js "Invalid URL"))
        | 0x2F :: p => inr (url (pathname_after_slash p))
        | _ => inr (url (opaque_path (codePoints rest)))
        end
  end.

(** ** The database and the runtime *)

(** A row of the view [information_schema.tables]. *)
Record TableRow : Type := {
  table_schema : jsstring;
  table_name : jsstring;
  table_type : jsstring }.

(** A row of a result with the single column [table_name]. *)
Record NameRow : Type := { row_table_name : jsstring }.

(** The statements the handlers send to the database. *)
Inductive Statement : Type :=
| SelectPublicTables                       (* src/index.ts, lines 46-50 *)
| SelectPublicBaseTablesOrdered            (* getTables *)
| SelectColumns (tableName : jsstring)     (* src/index.ts, lines 74-78 *)
| SelectSample (tableName : jsstring) (limit : N)
                                           (* SELECT * FROM ${sql(tableName)} LIMIT n *)
| Unsafe (text : jsstring).                (* sql.unsafe(text) *)


(** The database reads that text as a qualified name with one quoted
    part for each piece of the name between dots: [audit.log] is the
    relation [log] of the schema [audit]. *)
Definition identifier_parts (name : jsstring) : list jsstring :=
  split_on 0x2E name.



(** What the programs take from their environment: the database behind
    the [postgres] client (its state, the rows of
    [information_schema.tables] or the message of the failure of a query
    on it, and the outcome of the other statements, of which only
    [sql.unsafe] may change the state) and the library functions [new URL],
    [JSON.stringify(_, null, 2)] and the message of a [ZodError]. *)
Record Runtime : Type := {
  DB : Type;
  Rows : Type;
  pg_tables : DB -> jsstring + list TableRow;
  pg_columns : jsstring -> DB -> jsstring + Rows;
  pg_sample : jsstring -> N -> DB -> jsstring + Rows;
  pg_unsafe : jsstring -> DB -> (jsstring + Rows) * DB;
  new_URL : jsstring -> Exn + URL;
  JSON_stringify : Rows -> jsstring;
  JSON_stringify_schema_sample : Rows -> Rows -> jsstring;
  zod_message : option JSON -> jsstring }.

Fixpoint lex_leb (a b : list N) : bool :=
  match a, b with
  | [], _ => true
  | _ :: _, [] => false
  | x :: a', y :: b' => (x <? y) || ((x =? y) && lex_leb a' b')
  end.

(** The order of [ORDER BY table_name]: the column has the type [name]
    with the collation "C", which compares the encoded bytes, that is the
    code points. *)
Definition name_le (a b : jsstring) : Prop :=
  lex_leb (codePoints a) (codePoints b) = true.

Global Instance name_le_dec : RelDecision name_le.
Proof. intros a b. unfold name_le. apply _. Defined.

Section Effects.
Context (rt : Runtime).

(** The state a handler runs in: the database, the statements sent to it
    so far and what was written with [console.error]. *)
Record World : Type := {
  db : DB rt;
  issued : list Statement;
  stderr : list (jsstring * Exn) }.

(** A handler body: it ends by returning a value or by throwing. *)
Definition M (A : Type) : Type := World -> (Exn + A) * World.

Definition ret {A} (a : A) : M A := fun w => (inr a, w).
Definition throw {A} (e : Exn) : M A := fun w => (inl e, w).
Definition bind {A B} (m : M A) (k : A -> M B) : M B :=
  fun w => match m w with
           | (inl e, w') => (inl e, w')
           | (inr a, w') => k a w'
           end.
Definition try_catch {A} (m : M A) (h : Exn -> M A) : M A :=
  fun w => match m w with
           | (inl e, w') => h e w'
           | (inr a, w') => (inr a, w')
           end.

Definition sent (s : Statement) (d : DB rt) (w : World) : World :=
  {| db := d; issued := issued w ++ [s]; stderr := stderr w |}.

Definition rejected {A} (r : jsstring + A) : Exn + A :=
  match r with
  | inl m => inl (PostgresError m)
  | inr a => inr a
  end.

(** The rows of the two statements on [information_schema.tables]:
    [WHERE] keeps rows, [ORDER BY] sorts them. *)
Definition public_tables (rows : list TableRow) : list jsstring :=
  table_name <$> filter (fun r => table_schema r = js "public") rows.

Definition public_base_tables_ordered (rows : list TableRow) : list jsstring :=
  merge_sort name_le
    (table_name <$>
       filter (fun r => table_schema r = js "public"
                        /\ table_type r = js "BASE TABLE") rows).

Definition catalog_query (s : Statement)
    (select : list TableRow -> list jsstring) : M (list NameRow) :=
  fun w =>
    (match pg_tables rt (db w) with
     | inl m => inl (PostgresError m)
     | inr rows => inr (Build_NameRow <$> select rows)
     end,
     sent s (db w) w).

(** [SELECT table_name FROM information_schema.tables
     WHERE table_schema = 'public'] *)
Definition select_public_tables : M (list NameRow) :=
  catalog_query SelectPublicTables public_tables.

(** [SELECT table_name FROM information_schema.tables
     WHERE table_schema = 'public' AND table_type = 'BASE TABLE'
     ORDER BY table_name] *)
Definition select_public_base_tables_ordered : M (list NameRow) :=
  catalog_query SelectPublicBaseTablesOrdered public_base_tables_ordered.

Definition select_columns (tableName : jsstring) : M (Rows rt) :=
  fun w => (rejected (pg_columns rt tableName (db w)),
            sent (SelectColumns tableName) (db w) w).

Definition select_sample (tableName : jsstring) (limit : N) : M (Rows rt) :=
  fun w => (rejected (pg_sample rt tableName limit (db w)),
            sent (SelectSample tableName limit) (db w) w).

Definition sql_unsafe (text : jsstring) : M (Rows rt) :=
  fun w => let (r, d) := pg_unsafe rt text (db w) in
           (rejected r, sent (Unsafe text) d w).

Definition console_error (label : jsstring) (e : Exn) : M unit :=
  fun w => (inr tt, {| db := db w; issued := issued w;
                       stderr := stderr w ++ [(label, e)] |}).

(** [z.object({ key: z.string() }).parse(arguments)] *)
Definition zod_parse_string_field (key : jsstring) (arguments : option JSON)
  : M jsstring :=
  match arguments with
  | Some (JObject fields) =>
      match property key fields with
      | Some (JString s) => ret s
      | _ => throw (ZodError (zod_message rt arguments))
      end
  | _ => throw (ZodError (zod_message rt arguments))
  end.

End Effects.

Arguments ret {rt A} a w.
Arguments throw {rt A} e w.
Arguments bind {rt A B} m k w.
Arguments try_catch {rt A} m h w.

Notation "'await' x ':=' m 'in' k" := (bind m (fun x => k))
  (at level 10, x name, m at level 100, k at level 200).

(** [process.env.DANGEROUSLY_ALLOW_WRITE_OPS === "true" ||
     process.env.DANGEROUSLY_ALLOW_WRITE_OPS === "1"]; the variable is
    [None] when it is not set. *)
Definition allow_write_ops (env_var : option jsstring) : bool :=
  bool_decide (env_var = Some (js "true")) || bool_decide (env_var = Some (js "1")).

Definition text_content (text : jsstring) : TextContent :=
  {| tc_type := js "text"; tc_text := text |}.

(** ** The statement classifiers and the handlers *)

(** The vocabulary of the specification: a statement is classified as a
    read or as a write. *)
Inductive Classification : Type := ReadOnly | Write.

(** *** [src/index.ts], server version 0.1.0 *)
Module V010.
Section Handlers.
Context (rt : Runtime).
(** The value of the environment variable [DANGEROUSLY_ALLOW_WRITE_OPS]. *)
Context (env_allow : option jsstring).

Definition DANGEROUSLY_ALLOW_WRITE_OPS : bool := allow_write_ops env_allow.

(** Lines 52-58. *)
Definition resource_of (table : NameRow) : Resource :=
  {| res_uri := js "postgres://table/" ++ row_table_name table;
     res_name := js "Table: " ++ row_table_name table;
     res_description := js "Schema and sample data from the "
                          ++ row_table_name table ++ js " table";
     res_mimeType := js "application/json" |}.

(** Lines 45-60. *)
Definition ListResources : M rt (list Resource) :=
  await tables := select_public_tables rt in
  ret (resource_of <$> tables).

(** Line 71: the first match of [/^\/table\//] in [url.pathname] is
    replaced by the empty string. *)
Definition tableName_of (url : URL) : jsstring :=
  regex_remove false (re_lit (js "/table/")) (pathname url).

(** Lines 65-95. *)
Definition ReadResource (uri : jsstring) : M rt (list ResourceContents) :=
  match new_URL rt uri with
  | inl e => throw e
  | inr url =>
      if negb (bool_decide (protocol url = js "postgres:")) then
        throw (Error (js "Unsupported protocol: " ++ protocol url))
      else
        let tableName := tableName_of url in
        await columns := select_columns rt tableName in
        await sampleData := select_sample rt tableName 10 in
        ret [ {| rc_uri := uri;
                 rc_mimeType := js "application/json";
                 rc_text := JSON_stringify_schema_sample rt columns sampleData |} ]
  end.

(** Lines 100-119. *)
Definition ListTools : list Tool :=
  [ {| tool_name := js "query";
       tool_description :=
         js "Execute a PostgreSQL query. By default, only SELECT queries are allowed unless write ops are enabled.";
       tool_properties :=
         [ {| prop_name := js "sql"; prop_type := js "string";
              prop_description := js "The SQL query to execute" |} ];
       tool_required := [js "sql"] |} ].

(** Lines 132-133. *)
Definition isReadonly (queryText : jsstring) : bool :=
  startsWith (toLowerCase (trim queryText)) (js "select") ||
  startsWith (toLowerCase (trim queryText)) (js "with").

Definition refusal : CallToolResult :=
  {| content :=
       [ text_content (js "Error: Only SELECT queries are allowed. Set DANGEROUSLY_ALLOW_WRITE_OPS=true to enable write operations.") ];
     isError := Some true |}.

(** Lines 148-168. *)
Definition run_query (queryText : jsstring) : M rt CallToolResult :=
  try_catch
    (await result := sql_unsafe rt queryText in
     ret {| content := [ text_content (JSON_stringify rt result) ];
            isError := None |})
    (fun error =>
       ret {| content := [ text_content (js "Query error: " ++ message error) ];
              isError := Some true |}).

(** Lines 124-172. *)
Definition CallTool (name : jsstring) (arguments : option JSON)
  : M rt CallToolResult :=
  if bool_decide (name = js "query") then
    await queryText := zod_parse_string_field rt (js "sql") arguments in
    if negb DANGEROUSLY_ALLOW_WRITE_OPS then
      if negb (isReadonly queryText) then ret refusal
      else run_query queryText
    else run_query queryText
  else throw (Error (js "Tool not found: " ++ name)).

End Handlers.

(** The classification the gate of [CallTool] acts on. *)
Definition classify (queryText : jsstring) : Classification :=
  if isReadonly queryText then ReadOnly else Write.

End V010.

(** *** The program of server version 1.0.0

    Line numbers are those of its source file. *)
Module V100.
Section Handlers.
Context (rt : Runtime).
Context (env_allow : option jsstring).

Definition ALLOW_WRITE_OPS : bool := allow_write_ops env_allow.

(** The keywords of the literal
    [/^\s*(INSERT|UPDATE|DELETE|CREATE|DROP|ALTER|TRUNCATE|REPLACE)\s/i]. *)
Definition keywords : list jsstring :=
  [js "INSERT"; js "UPDATE"; js "DELETE"; js "CREATE";
   js "DROP"; js "ALTER"; js "TRUNCATE"; js "REPLACE"].

Definition writeKeywords : regex :=
  Cat (Rep re_s) (Cat (re_alt (re_lit <$> keywords)) (Cls re_s)).

(** Lines 34-37: the pattern is tested on the trimmed query, ignoring
    case. *)
Definition isWriteOperation (query : jsstring) : bool :=
  regex_test true writeKeywords (trim query).

(** Lines 40-49. *)
Definition getTables : M rt (list jsstring) :=
  await tables := select_public_base_tables_ordered rt in
  ret (row_table_name <$> tables).

(** Lines 66-87. *)
Definition ListTools : list Tool :=
  [ {| tool_name := js "query";
       tool_description :=
         if ALLOW_WRITE_OPS
         then js "Execute a SQL query (read or write operations allowed)"
         else js "Execute a read-only SQL query (SELECT statements only)";
       tool_properties :=
         [ {| prop_name := js "query"; prop_type := js "string";
              prop_description := js "SQL query to execute" |} ];
       tool_required := [js "query"] |} ].

Definition refusal : CallToolResult :=
  {| content :=
       [ text_content (js "Error: Write operations are not allowed. Set DANGEROUSLY_ALLOW_WRITE_OPS=true to enable write operations.") ];
     isError := None |}.

(** Lines 107-126. *)
Definition run_query (query : jsstring) : M rt CallToolResult :=
  try_catch
    (await result := sql_unsafe rt query in
     ret {| content := [ text_content (JSON_stringify rt result) ];
            isError := None |})
    (fun error =>
       ret {| content :=
                [ text_content (js "Error executing query: " ++ message error) ];
              isError := None |}).

(** Lines 90-130. *)
Definition CallTool (name : jsstring) (arguments : option JSON)
  : M rt CallToolResult :=
  if bool_decide (name = js "query") then
    await query := zod_parse_string_field rt (js "query") arguments in
    if isWriteOperation query && negb ALLOW_WRITE_OPS
    then ret refusal
    else run_query query
  else throw (Error (js "Unknown tool: " ++ name)).

(** Lines 137-142. *)
Definition resource_of (table : jsstring) : Resource :=
  {| res_uri := js "table:///" ++ table;
     res_name := table;
     res_description := js "PostgreSQL table: " ++ table;
     res_mimeType := js "application/json" |}.

(** Lines 133-148. *)
Definition ListResources : M rt (list Resource) :=
  try_catch
    (await tables := getTables in
     ret (resource_of <$> tables))
    (fun error =>
       await _u := console_error rt (js "Error listing tables:") error in
       ret []).

(** Line 153: [uri.match(/^table:\/\/\/(.+)$/)], the text of group 1 of
    the match. *)
Definition match_table_uri (uri : jsstring) : option jsstring :=
  regex_capture false (re_lit (js "table:///")) (re_plus re_dot) Eos uri.

(** Lines 151-183. *)
Definition ReadResource (uri : jsstring) : M rt (list ResourceContents) :=
  match match_table_uri uri with
  | None => throw (Error (js "Invalid resource URI: " ++ uri))
  | Some tableName =>
      try_catch
        (await tables := getTables in
         if negb (includes tables tableName) then
           throw (Error (js "Table not found: " ++ tableName))
         else
           await rows := select_sample rt tableName 100 in
           ret [ {| rc_uri := uri;
                    rc_mimeType := js "application/json";
                    rc_text := JSON_stringify rt rows |} ])
        (fun error =>
           throw (Error (js "Error reading table " ++ tableName ++ js ": "
                           ++ message error)))
  end.

End Handlers.

(** The classification the gate of [CallTool] acts on. *)
Definition classify (query : jsstring) : Classification :=
  if isWriteOperation query then Write else ReadOnly.

End V100.

(** The four request handlers of a server, as [setRequestHandler] binds
    them. *)
Record Server (rt : Runtime) : Type := {
  list_resources : M rt (list Resource);
  read_resource : jsstring -> M rt (list ResourceContents);
  list_tools : M rt (list Tool);
  call_tool : jsstring -> option JSON -> M rt CallToolResult }.
Arguments list_resources {rt} _.
Arguments read_resource {rt} _ _.
Arguments list_tools {rt} _.
Arguments call_tool {rt} _ _ _.

(** The server a process builds from its runtime and from the value of
    [DANGEROUSLY_ALLOW_WRITE_OPS] in its environment. *)
Definition server010 (rt : Runtime) (env_allow : option jsstring) : Server rt :=
  {| list_resources := V010.ListResources rt;
     read_resource := V010.ReadResource rt;
     list_tools := ret V010.ListTools;
     call_tool := V010.CallTool rt env_allow |}.

Definition server100 (rt : Runtime) (env_allow : option jsstring) : Server rt :=
  {| list_resources := V100.ListResources rt;
     read_resource := V100.ReadResource rt;
     list_tools := ret (V100.ListTools env_allow);
     call_tool := V100.CallTool rt env_allow |}.

(** The statements a handler body sends when it runs in [w]. *)
Definition sent_during {rt A} (m : M rt A) (w : World rt) : list Statement :=
  drop (length (issued rt w)) (issued rt (m w).2).

(** The arguments object [{ key: text }] of a tool call. *)
Definition arguments_with (key text : jsstring) : option JSON :=
  Some (JObject [(key, JString text)]).

(** ** The wording of the specification for the classifier *)

(** A text begins with a keyword, upper and lower case taken as equal. *)
Fixpoint startsWithIgnoreCase (ic : bool) (s p : jsstring) {struct p} : bool :=
  match p, s with
  | [], _ => true
  | a :: p', b :: s' =>
      (canonicalize ic a =? canonicalize ic b) && startsWithIgnoreCase ic s' p'
  | _ :: _, [] => false
  end.

(** The specification: the text begins with one of the eight keywords. *)
Definition begins_with_write_keyword (s : jsstring) : bool :=
  existsb (startsWithIgnoreCase true s) V100.keywords.

(** The unit of [s] at index [n] is white space or a line terminator. *)
Definition space_at (n : nat) (s : jsstring) : bool :=
  match drop n s with
  | c :: _ => isStrWhiteSpaceChar c
  | [] => false
  end.

(** The text begins with one of the eight keywords with a white space
    unit right after it. *)
Definition begins_with_write_keyword_and_space (s : jsstring) : bool :=
  existsb (fun kw => startsWithIgnoreCase true s kw && space_at (length kw) s)
    V100.keywords.

(** ** The wording of the specification for the tool call *)

(** The write gate of a tool call on the statement [text]: the statement
    is sent with [sql.unsafe], once, exactly when writes are allowed or
    the statement is classified as read-only; otherwise nothing is sent
    and the call returns the refusal, leaving the database as it was. *)
Definition gated {rt} (call : M rt CallToolResult) (w : World rt)
    (text : jsstring) (allow : bool) (class : Classification)
    (refusal : CallToolResult) : Prop :=
  (sent_during call w = [Unsafe text] <-> allow = true \/ class = ReadOnly) /\
  (sent_during call w = [] <-> allow = false /\ class = Write) /\
  (allow = false -> class = Write -> call w = (inr refusal, w)).

(** The description of the first tool a server lists. *)
Definition listed_description {rt} (srv : Server rt) (w : World rt)
  : option jsstring :=
  match (list_tools srv w).1 with
  | inr (tool :: _) => Some (tool_description tool)
  | _ => None
  end.

(** The outcome of a handler is a normal response flagged as an error. *)
Definition flagged_failure (outcome : Exn + CallToolResult) : Prop :=
  exists result, outcome = inr result /\ isError result = Some true.

(** A letter, a digit or an underscore: the characters of an unquoted
    SQL identifier. *)
Definition isPlain (c : N) : bool :=
  isAsciiAlpha c || isAsciiDigit c || (c =? 0x5F).

(** ** A small database, for running the handlers *)
Module Demo.

Record State : Type := {
  connected : bool;
  catalog : list TableRow;
  statements_run : list jsstring }.

(** The relation that the identifier [sql(tableName)] names, as schema
    and name: a name of one part is looked up in [public] (the search
    path of this database), a name of two parts in the schema it gives. *)
Definition relation_of (d : State) (tableName : jsstring)
  : option (jsstring * jsstring) :=
  let found schema name :=
    if existsb (fun r => bool_decide (table_schema r = schema
                                      /\ table_name r = name)) (catalog d)
    then Some (schema, name) else None in
  match identifier_parts tableName with
  | [name] => found (js "public") name
  | [schema; name] => found schema name
  | _ => None
  end.

(** A database that rejects every statement when the connection is lost,
    a sample of a relation that does not exist, and the one statement
    [SELEC 1].  A sample that succeeds returns, as its rows, the schema
    and the name of the relation that was read. *)
Definition rt : Runtime :=
  {| DB := State;
     Rows := list jsstring;
     pg_tables := fun d =>
       if connected d then inr (catalog d)
       else inl (js "connection terminated");
     pg_columns := fun tableName d =>
       if connected d then inr [] else inl (js "connection terminated");
     pg_sample := fun tableName limit d =>
       if connected d then
         match relation_of d tableName with
         | Some (schema, name) => inr [schema; name]
         | None => inl (js "relation does not exist")
         end
       else inl (js "connection terminated");
     pg_unsafe := fun text d =>
       if connected d then
         if bool_decide (text = js "SELEC 1")
         then (inl (js "syntax error at or near SELEC"), d)
         else (inr [],
               {| connected := true; catalog := catalog d;
                  statements_run := statements_run d ++ [text] |})
       else (inl (js "connection terminated"), d);
     new_URL := whatwg_URL;
     JSON_stringify := fun rows => js "[]";
     JSON_stringify_schema_sample := fun columns sampleData => js "{}";
     zod_message := fun arguments => js "Required" |}.

Definition table (schema name type : jsstring) : TableRow :=
  {| table_schema := schema; table_name := name; table_type := type |}.

(** Two base tables and a view in [public], a base table elsewhere. *)
Definition tables : list TableRow :=
  [ table (js "public") (js "users") (js "BASE TABLE");
    table (js "public") (js "active_users") (js "VIEW");
    table (js "audit") (js "log") (js "BASE TABLE");
    table (js "public") (js "orders") (js "BASE TABLE") ].

Definition world (d : State) : World rt := Build_World rt d [] [].

Definition online : World rt :=
  world {| connected := true; catalog := tables; statements_run := [] |}.

Definition offline : World rt :=
  world {| connected := false; catalog := tables; statements_run := [] |}.



End Demo.

(** * Properties *)

(** ** Strings and patterns *)

Lemma startsWith_prefix (s p : jsstring) :
  startsWith s p = true <-> exists r, s = p ++ r.
Proof.
  revert s; induction p as [|a p IH]; intros s; simpl.
  - split; [intros _; by exists s | done].
  - destruct s as [|b s]; simpl.
    + split; [discriminate | intros [r Hr]; discriminate].
    + rewrite andb_true_iff, N.eqb_eq, IH. split.
      * intros [-> [r ->]]. by exists r.
      * intros [r Hr]. injection Hr as -> ->. split; [done | by exists r].
Qed.

Lemma trimStart_app_last (l : jsstring) (c : N) :
  isStrWhiteSpaceChar c = false -> trimStart (l ++ [c]) = trimStart l ++ [c].
Proof.
  intros Hc. induction l as [|d l IH]; simpl.
  - by rewrite Hc.
  - destruct (isStrWhiteSpaceChar d); [exact IH | reflexivity].
Qed.

Lemma trimStart_head (s : jsstring) (c : N) (t : jsstring) :
  trimStart s = c :: t -> isStrWhiteSpaceChar c = false.
Proof.
  induction s as [|d s IH]; simpl; [discriminate|].
  destruct (isStrWhiteSpaceChar d) eqn:Hd; [exact IH|].
  intros [= <- <-]. exact Hd.
Qed.

(** A trimmed text does not begin with white space. *)
Lemma trim_head (q : jsstring) (c : N) (t : jsstring) :
  trim q = c :: t -> isStrWhiteSpaceChar c = false.
Proof.
  unfold trim, trimEnd.
  destruct (trimStart q) as [|d s] eqn:Hs; [discriminate|].
  apply trimStart_head in Hs. simpl.
  rewrite trimStart_app_last by exact Hs.
  rewrite rev_app_distr. simpl. intros [= <- _]. exact Hs.
Qed.

Lemma nonempty_app {A} (l k : list A) :
  nonempty (l ++ k) = nonempty l || nonempty k.
Proof. by destruct l. Qed.

Lemma nonempty_flat_map {A B} (f : A -> list B) (l : list A) :
  nonempty (flat_map f l) = existsb (fun x => nonempty (f x)) l.
Proof.
  induction l as [|x l IH]; simpl; [done|]. by rewrite nonempty_app, IH.
Qed.

Lemma regex_test_nonempty ic r s : regex_test ic r s = nonempty (rmatch ic r s).
Proof. reflexivity. Qed.

Lemma rep_class_head (p : N -> bool) (s : jsstring) :
  match s with c :: _ => p c = false | [] => True end ->
  rep_class p s = [s].
Proof. destruct s as [|c t]; simpl; [done|]. by intros ->. Qed.

Lemma rmatch_lit ic (l s : jsstring) :
  rmatch ic (re_lit l) s =
  if startsWithIgnoreCase ic s l then [drop (length l) s] else [].
Proof.
  revert s; induction l as [|a l IH]; intros s; simpl; [done|].
  destruct s as [|b s]; simpl; [done|].
  destruct (canonicalize ic a =? canonicalize ic b); simpl; [|done].
  rewrite IH. destruct (startsWithIgnoreCase ic s l); by simpl.
Qed.

Lemma rmatch_fold_Alt ic (rs : list regex) (r : regex) (s : jsstring) :
  rmatch ic (fold_left Alt rs r) s =
  rmatch ic r s ++ flat_map (fun r' => rmatch ic r' s) rs.
Proof.
  revert r; induction rs as [|r' rs IH]; intros r; simpl.
  - by rewrite app_nil_r.
  - rewrite IH. simpl. by rewrite <- app_assoc.
Qed.

Lemma rmatch_alt ic (rs : list regex) (s : jsstring) :
  rmatch ic (re_alt rs) s = flat_map (fun r => rmatch ic r s) rs.
Proof.
  destruct rs as [|r rs]; simpl.
  - by destruct s.
  - apply rmatch_fold_Alt.
Qed.

(** Without the ignore-case flag a literal pattern is a plain prefix
    test. *)
Lemma startsWithIgnoreCase_false (s p : jsstring) :
  startsWithIgnoreCase false s p = startsWith s p.
Proof.
  revert s; induction p as [|a p IH]; intros [|b s]; simpl; try done.
  by rewrite IH.
Qed.

Lemma rmatch_Cat ic r1 r2 s :
  rmatch ic (Cat r1 r2) s = flat_map (rmatch ic r2) (rmatch ic r1 s).
Proof. reflexivity. Qed.

Lemma rmatch_Cls_space_at ic (s : jsstring) :
  nonempty (rmatch ic (Cls re_s) s) = space_at 0 s.
Proof.
  unfold space_at, re_s. destruct s as [|c t]; simpl; [done|].
  by destruct (isStrWhiteSpaceChar c).
Qed.

Lemma space_at_drop (n : nat) (s : jsstring) :
  space_at 0 (drop n s) = space_at n s.
Proof. reflexivity. Qed.

(** A keyword alternative followed by [\s], tested at the start of [s]. *)
Lemma test_keywords_then_space ic (kws : list jsstring) (s : jsstring) :
  nonempty (rmatch ic (Cat (re_alt (re_lit <$> kws)) (Cls re_s)) s) =
  existsb (fun kw => startsWithIgnoreCase ic s kw && space_at (length kw) s) kws.
Proof.
  rewrite rmatch_Cat, rmatch_alt.
  induction kws as [|kw kws IH]; [done|].
  cbn [fmap list_fmap flat_map existsb].
  rewrite flat_map_app, nonempty_app, IH, rmatch_lit.
  destruct (startsWithIgnoreCase ic s kw); cbn [flat_map andb]; [|done].
  by rewrite app_nil_r, rmatch_Cls_space_at, space_at_drop.
Qed.

(** [isWriteOperation] in words: after trimming, a keyword and then a
    white space unit. *)
Lemma isWriteOperation_keyword_space (query : jsstring) :
  V100.isWriteOperation query = begins_with_write_keyword_and_space (trim query).
Proof.
  unfold V100.isWriteOperation, V100.writeKeywords,
    begins_with_write_keyword_and_space.
  rewrite regex_test_nonempty, rmatch_Cat.
  change (rmatch true (Rep re_s) (trim query)) with (rep_class re_s (trim query)).
  rewrite rep_class_head.
  - cbn [flat_map]. rewrite app_nil_r. apply test_keywords_then_space.
  - destruct (trim query) as [|c t] eqn:Hq; [done|].
    exact (trim_head _ _ _ Hq).
Qed.

Lemma keyword_space_begins (s : jsstring) :
  begins_with_write_keyword_and_space s = true ->
  begins_with_write_keyword s = true.
Proof.
  unfold begins_with_write_keyword_and_space, begins_with_write_keyword.
  rewrite !existsb_exists. intros (kw & Hin & H).
  apply andb_true_iff in H as [H _]. eauto.
Qed.

(** ** The classifiers *)

(** C6. Both classifiers give the four results the specification lists:
    [SELECT * FROM t] and [  with cte as (...) select 1] are read-only,
    [DELETE FROM t] and [delete from t] are writes, under the test of
    [src/index.ts] (a statement is read-only when it begins with [select]
    or [with]) and under [isWriteOperation]. *)
Theorem classify_spec_examples :
  (V010.classify (js "SELECT * FROM t") = ReadOnly /\
   V010.classify (js "  with cte as (...) select 1") = ReadOnly /\
   V010.classify (js "DELETE FROM t") = Write /\
   V010.classify (js "delete from t") = Write) /\
  (V100.classify (js "SELECT * FROM t") = ReadOnly /\
   V100.classify (js "  with cte as (...) select 1") = ReadOnly /\
   V100.classify (js "DELETE FROM t") = Write /\
   V100.classify (js "delete from t") = Write).
Proof. repeat split; vm_compute; reflexivity. Qed.

(** C7. [isWriteOperation] is meant to find the statements that begin
    with INSERT, UPDATE, DELETE, CREATE, DROP, ALTER, TRUNCATE or REPLACE,
    and it does so when white space follows the keyword: every such
    statement is a write, and every statement that begins with none of
    the keywords is read-only.  It misses a keyword that is followed by
    anything else: [DELETE/**/FROM t] begins with DELETE, is classified
    as read-only, and the server of version 1.0.0, with writes not
    allowed, sends it to the database, which runs it. *)
Theorem isWriteOperation_misses_keyword_without_space :
  (forall q kw,
     kw ∈ [js "INSERT"; js "UPDATE"; js "DELETE"; js "CREATE";
           js "DROP"; js "ALTER"; js "TRUNCATE"; js "REPLACE"] ->
     startsWithIgnoreCase true (trim q) kw = true ->
     space_at (length kw) (trim q) = true ->
     V100.classify q = Write) /\
  (forall q, begins_with_write_keyword (trim q) = false ->
             V100.classify q = ReadOnly) /\
  let q := js "DELETE/**/FROM t" in
  let call :=
    V100.CallTool Demo.rt None (js "query") (arguments_with (js "query") q) in
  startsWithIgnoreCase true (trim q) (js "DELETE") = true /\
  begins_with_write_keyword (trim q) = true /\
  V100.classify q = ReadOnly /\
  allow_write_ops None = false /\
  sent_during call Demo.online = [Unsafe q] /\
  Demo.statements_run (db Demo.rt (call Demo.online).2) = [q].
Proof.
  split; [|split].
  - intros q kw Hkw Hbegins Hspace. unfold V100.classify.
    rewrite isWriteOperation_keyword_space.
    assert (begins_with_write_keyword_and_space (trim q) = true) as ->; [|done].
    apply existsb_exists. exists kw. split.
    + apply list_elem_of_In. exact Hkw.
    + by rewrite Hbegins, Hspace.
  - intros q Hno. unfold V100.classify.
    rewrite isWriteOperation_keyword_space.
    pose proof (keyword_space_begins (trim q)) as Hbegins.
    destruct (begins_with_write_keyword_and_space (trim q)); [|done].
    rewrite Hbegins in Hno; done.
  - repeat split; vm_compute; reflexivity.
Qed.

Lemma isWriteOperation_misses_keyword_without_space_witness :
  V100.classify (js "  truncate" ++ [0x09] ++ js "t ") = Write /\
  V100.classify (js "SELECT 1") = ReadOnly.
Proof.
  destruct isWriteOperation_misses_keyword_without_space
    as (Hwrite & Hread & _).
  split.
  - apply (Hwrite _ (js "TRUNCATE")); [|reflexivity|reflexivity].
    do 6 apply list_elem_of_further. apply list_elem_of_here.
  - apply Hread. reflexivity.
Defined.

(** ** The tool call *)

Section CallTool.
Context (rt : Runtime) (env_allow : option jsstring).

Lemma sent_during_sent {A} (m : M rt A) (w : World rt) (l : list Statement) :
  issued rt (m w).2 = issued rt w ++ l -> sent_during m w = l.
Proof. unfold sent_during. intros ->. apply drop_app_length. Qed.

Lemma zod_parse_string_field_ok key fields text (w : World rt) :
  property key fields = Some (JString text) ->
  zod_parse_string_field rt key (Some (JObject fields)) w = (inr text, w).
Proof. intros H. unfold zod_parse_string_field. by rewrite H. Qed.

(** The outcome of [sql.unsafe] followed by the two [return]s of the
    [try] and [catch] blocks of [src/index.ts]. *)
Lemma V010_run_query (queryText : jsstring) (w : World rt) :
  V010.run_query rt queryText w =
  (inr match (pg_unsafe rt queryText (db rt w)).1 with
       | inl m => {| content := [ text_content (js "Query error: " ++ m) ];
                     isError := Some true |}
       | inr result => {| content := [ text_content (JSON_stringify rt result) ];
                          isError := None |}
       end,
   sent rt (Unsafe queryText) (pg_unsafe rt queryText (db rt w)).2 w).
Proof.
  unfold V010.run_query, try_catch, bind, sql_unsafe, ret.
  destruct (pg_unsafe rt queryText (db rt w)) as [[m|result] d]; reflexivity.
Qed.

Lemma V100_run_query (query : jsstring) (w : World rt) :
  V100.run_query rt query w =
  (inr match (pg_unsafe rt query (db rt w)).1 with
       | inl m => {| content :=
                       [ text_content (js "Error executing query: " ++ m) ];
                     isError := None |}
       | inr result => {| content := [ text_content (JSON_stringify rt result) ];
                          isError := None |}
       end,
   sent rt (Unsafe query) (pg_unsafe rt query (db rt w)).2 w).
Proof.
  unfold V100.run_query, try_catch, bind, sql_unsafe, ret.
  destruct (pg_unsafe rt query (db rt w)) as [[m|result] d]; reflexivity.
Qed.

Lemma V010_CallTool_query fields queryText (w : World rt) :
  property (js "sql") fields = Some (JString queryText) ->
  V010.CallTool rt env_allow (js "query") (Some (JObject fields)) w =
  if negb (allow_write_ops env_allow) && negb (V010.isReadonly queryText)
  then (inr V010.refusal, w)
  else V010.run_query rt queryText w.
Proof.
  intros H. unfold V010.CallTool, V010.DANGEROUSLY_ALLOW_WRITE_OPS.
  rewrite bool_decide_eq_true_2 by reflexivity.
  unfold bind at 1. rewrite (zod_parse_string_field_ok _ _ _ _ H).
  destruct (allow_write_ops env_allow), (V010.isReadonly queryText); reflexivity.
Qed.

Lemma V100_CallTool_query fields query (w : World rt) :
  property (js "query") fields = Some (JString query) ->
  V100.CallTool rt env_allow (js "query") (Some (JObject fields)) w =
  if V100.isWriteOperation query && negb (allow_write_ops env_allow)
  then (inr V100.refusal, w)
  else V100.run_query rt query w.
Proof.
  intros H. unfold V100.CallTool, V100.ALLOW_WRITE_OPS.
  rewrite bool_decide_eq_true_2 by reflexivity.
  unfold bind at 1. rewrite (zod_parse_string_field_ok _ _ _ _ H).
  destruct (V100.isWriteOperation query && negb (allow_write_ops env_allow));
    reflexivity.
Qed.

Lemma sent_during_run_query_010 queryText (w : World rt) :
  sent_during (V010.run_query rt queryText) w = [Unsafe queryText].
Proof. apply sent_during_sent. by rewrite V010_run_query. Qed.

Lemma sent_during_run_query_100 query (w : World rt) :
  sent_during (V100.run_query rt query) w = [Unsafe query].
Proof. apply sent_during_sent. by rewrite V100_run_query. Qed.

End CallTool.

(** C1. A call of the tool [query] sends the statement to the database
    with [sql.unsafe] if and only if writes are allowed or the statement
    is classified as read-only; when writes are not allowed and the
    statement is classified as a write, the handler returns the refusal
    and sends nothing.  This holds for both servers, each with its own
    classifier and its own name of the argument. *)
Theorem query_sent_iff_permitted (rt : Runtime) (env_allow : option jsstring)
    (fields : list (jsstring * JSON)) (text : jsstring) (w : World rt) :
  (property (js "sql") fields = Some (JString text) ->
   gated (V010.CallTool rt env_allow (js "query") (Some (JObject fields))) w
     text (allow_write_ops env_allow) (V010.classify text) V010.refusal) /\
  (property (js "query") fields = Some (JString text) ->
   gated (V100.CallTool rt env_allow (js "query") (Some (JObject fields))) w
     text (allow_write_ops env_allow) (V100.classify text) V100.refusal).
Proof.
  split; intros Hfield; unfold gated.
  - pose proof (V010_CallTool_query rt env_allow fields text w Hfield) as Hcall.
    pose proof (sent_during_run_query_010 rt text w) as Hrun.
    unfold sent_during in *. rewrite Hcall. unfold V010.classify.
    destruct (allow_write_ops env_allow), (V010.isReadonly text);
      cbn [negb andb] in *; rewrite ?Hrun; rewrite ?drop_all;
      repeat split; try done; try (intros; by auto);
      try (intros [?|?]; done); try (intros [? ?]; done).
  - pose proof (V100_CallTool_query rt env_allow fields text w Hfield) as Hcall.
    pose proof (sent_during_run_query_100 rt text w) as Hrun.
    unfold sent_during in *. rewrite Hcall. unfold V100.classify.
    destruct (allow_write_ops env_allow), (V100.isWriteOperation text);
      cbn [negb andb] in *; rewrite ?Hrun; rewrite ?drop_all;
      repeat split; try done; try (intros; by auto);
      try (intros [?|?]; done); try (intros [? ?]; done).
Qed.

Lemma query_sent_iff_permitted_witness :
  gated (V010.CallTool Demo.rt None (js "query")
           (arguments_with (js "sql") (js "DROP TABLE t")))
    Demo.online (js "DROP TABLE t") false Write V010.refusal /\
  gated (V100.CallTool Demo.rt (Some (js "1")) (js "query")
           (arguments_with (js "query") (js "DROP TABLE t")))
    Demo.online (js "DROP TABLE t") true Write V100.refusal.
Proof.
  split.
  - apply (proj1 (query_sent_iff_permitted Demo.rt None
                    [(js "sql", JString (js "DROP TABLE t"))]
                    (js "DROP TABLE t") Demo.online)).
    reflexivity.
  - apply (proj2 (query_sent_iff_permitted Demo.rt (Some (js "1"))
                    [(js "query", JString (js "DROP TABLE t"))]
                    (js "DROP TABLE t") Demo.online)).
    reflexivity.
Defined.

(** C10. With writes not allowed, the gate of [src/index.ts] is a test on
    the first characters of the trimmed, lower-cased statement: when they
    are [select] or [with], whatever follows, the statement is classified
    as read-only and sent to the database; every other statement is
    refused and nothing is sent.  So [selectivity_test()] and
    [withdraw_funds()] are sent, and [EXPLAIN], [SHOW] and the empty
    statement are refused. *)
Theorem whitelist_is_a_prefix_test (rt : Runtime) (env_allow : option jsstring)
    (text : jsstring) (w : World rt) :
  allow_write_ops env_allow = false ->
  let call :=
    V010.CallTool rt env_allow (js "query") (arguments_with (js "sql") text) in
  let begins p := exists rest, toLowerCase (trim text) = js p ++ rest in
  (begins "select"%string \/ begins "with"%string ->
   V010.classify text = ReadOnly /\
   sent_during call w = [Unsafe text] /\
   (call w).2 = sent rt (Unsafe text) (pg_unsafe rt text (db rt w)).2 w) /\
  (~ (begins "select"%string \/ begins "with"%string) ->
   V010.classify text = Write /\
   call w = (inr V010.refusal, w) /\
   sent_during call w = []) /\
  V010.classify (js "selectivity_test()") = ReadOnly /\
  V010.classify (js "withdraw_funds()") = ReadOnly /\
  V010.classify (js "EXPLAIN SELECT 1") = Write /\
  V010.classify (js "SHOW search_path") = Write /\
  V010.classify [] = Write.
Proof.
  intros Hallow call begins.
  assert (Hcall : call w =
            if negb (V010.isReadonly text) then (inr V010.refusal, w)
            else V010.run_query rt text w).
  { unfold call, arguments_with.
    rewrite (V010_CallTool_query rt env_allow _ text w)
      by reflexivity.
    by rewrite Hallow. }
  assert (Hread : V010.isReadonly text = true <->
                  begins "select"%string \/ begins "with"%string).
  { unfold V010.isReadonly, begins.
    by rewrite orb_true_iff, !startsWith_prefix. }
  split; [|split; [|repeat split; vm_compute; reflexivity]].
  - intros Hb. apply Hread in Hb. unfold V010.classify.
    unfold sent_during. rewrite Hcall, Hb. simpl negb. cbv iota.
    split; [done|]. split.
    + apply sent_during_run_query_010.
    + by rewrite V010_run_query.
  - intros Hb. assert (V010.isReadonly text = false) as Hn.
    { destruct (V010.isReadonly text); [|done]. destruct Hb. by apply Hread. }
    unfold V010.classify, sent_during. rewrite Hcall, Hn. simpl.
    split; [done|]. split; [done|]. apply drop_all.
Qed.

Lemma whitelist_is_a_prefix_test_witness :
  sent_during
    (V010.CallTool Demo.rt None (js "query")
       (arguments_with (js "sql") (js "selectivity_test()")))
    Demo.online = [Unsafe (js "selectivity_test()")] /\
  V010.CallTool Demo.rt None (js "query")
    (arguments_with (js "sql") (js "SHOW search_path")) Demo.online
  = (inr V010.refusal, Demo.online).
Proof.
  split.
  - apply (whitelist_is_a_prefix_test Demo.rt None (js "selectivity_test()")
             Demo.online); [reflexivity|].
    left. exists (js "ivity_test()"). reflexivity.
  - apply (whitelist_is_a_prefix_test Demo.rt None (js "SHOW search_path")
             Demo.online); [reflexivity|].
    intros [[rest H]|[rest H]]; vm_compute in H; discriminate H.
Defined.

(** C2, as the claim states it, fails on the server of version 1.0.0:
    the refusal of a write and the report of a database error are normal
    responses, and neither carries [isError]. *)
Lemma failures_not_flagged_100 :
  ~ flagged_failure
      (V100.CallTool Demo.rt None (js "query")
         (arguments_with (js "query") (js "DROP TABLE t")) Demo.online).1 /\
  ~ flagged_failure
      (V100.CallTool Demo.rt None (js "query")
         (arguments_with (js "query") (js "SELEC 1")) Demo.online).1.
Proof.
  split; intros (result & Hout & Hflag); vm_compute in Hout;
    injection Hout as <-; discriminate Hflag.
Qed.

(** C2, amended. Neither server throws on a failed call of [query]: a
    write refused by the policy and a statement the database rejects both
    give a normal response with one text block, which carries the message
    of the database in the second case.  The server of [src/index.ts]
    flags both responses with [isError: true]; the server of version
    1.0.0 returns them without [isError]. *)
Theorem query_failures_are_responses (rt : Runtime)
    (env_allow : option jsstring) (fields : list (jsstring * JSON))
    (text : jsstring) (w : World rt) :
  (property (js "sql") fields = Some (JString text) ->
   let call := V010.CallTool rt env_allow (js "query") (Some (JObject fields)) in
   (allow_write_ops env_allow = false -> V010.classify text = Write ->
    (call w).1 = inr V010.refusal /\ flagged_failure (call w).1) /\
   (forall m,
      allow_write_ops env_allow = true \/ V010.classify text = ReadOnly ->
      (pg_unsafe rt text (db rt w)).1 = inl m ->
      (call w).1 = inr {| content := [ text_content (js "Query error: " ++ m) ];
                          isError := Some true |} /\
      flagged_failure (call w).1)) /\
  (property (js "query") fields = Some (JString text) ->
   let call := V100.CallTool rt env_allow (js "query") (Some (JObject fields)) in
   (allow_write_ops env_allow = false -> V100.classify text = Write ->
    (call w).1 = inr V100.refusal /\ isError V100.refusal = None) /\
   (forall m,
      allow_write_ops env_allow = true \/ V100.classify text = ReadOnly ->
      (pg_unsafe rt text (db rt w)).1 = inl m ->
      (call w).1 =
        inr {| content := [ text_content (js "Error executing query: " ++ m) ];
               isError := None |})).
Proof.
  split; intros Hfield call; subst call.
  - rewrite (V010_CallTool_query rt env_allow fields text w Hfield).
    unfold V010.classify. split.
    + intros -> Hw. destruct (V010.isReadonly text); [done|]. simpl.
      split; [done|]. by exists V010.refusal.
    + intros m Hok Hm.
      assert (negb (allow_write_ops env_allow) && negb (V010.isReadonly text)
              = false) as ->.
      { destruct Hok as [->|Hr]; [done|].
        destruct (V010.isReadonly text); [|done]. apply andb_false_r. }
      rewrite V010_run_query, Hm. simpl. split; [done|]. eexists; eauto.
  - rewrite (V100_CallTool_query rt env_allow fields text w Hfield).
    unfold V100.classify. split.
    + intros -> Hw. destruct (V100.isWriteOperation text); [|done]. done.
    + intros m Hok Hm.
      assert (V100.isWriteOperation text && negb (allow_write_ops env_allow)
              = false) as ->.
      { destruct Hok as [->|Hr]; [apply andb_false_r|].
        destruct (V100.isWriteOperation text); done. }
      by rewrite V100_run_query, Hm.
Qed.

Lemma query_failures_are_responses_witness :
  flagged_failure
    (V010.CallTool Demo.rt None (js "query")
       (arguments_with (js "sql") (js "DROP TABLE t")) Demo.online).1 /\
  flagged_failure
    (V010.CallTool Demo.rt (Some (js "true")) (js "query")
       (arguments_with (js "sql") (js "SELEC 1")) Demo.online).1 /\
  (V100.CallTool Demo.rt None (js "query")
     (arguments_with (js "query") (js "DROP TABLE t")) Demo.online).1
  = inr V100.refusal /\
  (V100.CallTool Demo.rt None (js "query")
     (arguments_with (js "query") (js "SELEC 1")) Demo.online).1
  = inr {| content :=
             [ text_content (js "Error executing query: "
                               ++ js "syntax error at or near SELEC") ];
           isError := None |}.
Proof.
  pose proof (query_failures_are_responses Demo.rt None
                [(js "sql", JString (js "DROP TABLE t"))]
                (js "DROP TABLE t") Demo.online) as [Hrefuse010 _].
  pose proof (query_failures_are_responses Demo.rt (Some (js "true"))
                [(js "sql", JString (js "SELEC 1"))]
                (js "SELEC 1") Demo.online) as [Hreject010 _].
  pose proof (query_failures_are_responses Demo.rt None
                [(js "query", JString (js "DROP TABLE t"))]
                (js "DROP TABLE t") Demo.online) as [_ Hrefuse100].
  pose proof (query_failures_are_responses Demo.rt None
                [(js "query", JString (js "SELEC 1"))]
                (js "SELEC 1") Demo.online) as [_ Hreject100].
  destruct (Hrefuse010 eq_refl) as [Ha _].
  destruct (Hreject010 eq_refl) as [_ Hb].
  destruct (Hrefuse100 eq_refl) as [Hc _].
  destruct (Hreject100 eq_refl) as [_ Hd].
  split; [|split; [|split]].
  - exact (proj2 (Ha eq_refl eq_refl)).
  - exact (proj2 (Hb (js "syntax error at or near SELEC")
                    (or_introl eq_refl) eq_refl)).
  - exact (proj1 (Hc eq_refl eq_refl)).
  - exact (Hd (js "syntax error at or near SELEC") (or_intror eq_refl) eq_refl).
Defined.

(** ** The order of table names *)

Lemma lex_leb_total (a b : list N) : lex_leb a b = true \/ lex_leb b a = true.
Proof.
  revert b; induction a as [|x a IH]; intros [|y b]; simpl; auto.
  destruct (N.lt_trichotomy x y) as [H|[H|H]].
  - left. apply orb_true_iff. left. by apply N.ltb_lt.
  - subst y. rewrite N.eqb_refl, N.ltb_irrefl. simpl. apply IH.
  - right. apply orb_true_iff. left. by apply N.ltb_lt.
Qed.

Lemma lex_leb_trans (a b c : list N) :
  lex_leb a b = true -> lex_leb b c = true -> lex_leb a c = true.
Proof.
  revert b c; induction a as [|x a IH]; intros [|y b] [|z c]; simpl; try done.
  rewrite !orb_true_iff, !andb_true_iff, !N.ltb_lt, !N.eqb_eq.
  intros [Hxy|[-> Hab]] [Hyz|[-> Hbc]].
  - left. lia.
  - by left.
  - by left.
  - right. split; [done|]. by apply (IH b).
Qed.

Global Instance name_le_total : Total name_le.
Proof. intros a b. apply lex_leb_total. Qed.

Global Instance name_le_trans : Transitive name_le.
Proof. intros a b c. apply lex_leb_trans. Qed.

(** ** The catalog *)

Section Catalog.
Context (rt : Runtime).

Lemma row_table_name_Build (names : list jsstring) :
  row_table_name <$> (Build_NameRow <$> names) = names.
Proof. induction names as [|n names IH]; [done|]. cbn. f_equal. exact IH. Qed.

Lemma V100_getTables (w : World rt) :
  V100.getTables rt w =
  (match pg_tables rt (db rt w) with
   | inl m => inl (PostgresError m)
   | inr rows => inr (public_base_tables_ordered rows)
   end,
   sent rt SelectPublicBaseTablesOrdered (db rt w) w).
Proof.
  unfold V100.getTables, bind, select_public_base_tables_ordered, catalog_query.
  destruct (pg_tables rt (db rt w)) as [m|rows]; [done|].
  unfold ret. cbv beta iota. by rewrite row_table_name_Build.
Qed.

Lemma V010_ListResources (w : World rt) :
  V010.ListResources rt w =
  (match pg_tables rt (db rt w) with
   | inl m => inl (PostgresError m)
   | inr rows =>
       inr (V010.resource_of <$> (Build_NameRow <$> public_tables rows))
   end,
   sent rt SelectPublicTables (db rt w) w).
Proof.
  unfold V010.ListResources, bind, select_public_tables, catalog_query.
  by destruct (pg_tables rt (db rt w)) as [m|rows].
Qed.

Lemma V100_ListResources (w : World rt) :
  V100.ListResources rt w =
  match pg_tables rt (db rt w) with
  | inl m =>
      (inr [],
       {| db := db rt w;
          issued := issued rt w ++ [SelectPublicBaseTablesOrdered];
          stderr := stderr rt w
                      ++ [(js "Error listing tables:", PostgresError m)] |})
  | inr rows =>
      (inr (V100.resource_of <$> public_base_tables_ordered rows),
       sent rt SelectPublicBaseTablesOrdered (db rt w) w)
  end.
Proof.
  unfold V100.ListResources, try_catch, bind. rewrite V100_getTables.
  by destruct (pg_tables rt (db rt w)) as [m|rows].
Qed.

End Catalog.

Lemma elem_of_public_base_tables_ordered (rows : list TableRow) (n : jsstring) :
  n ∈ public_base_tables_ordered rows <->
  exists r, r ∈ rows /\ table_schema r = js "public" /\
            table_type r = js "BASE TABLE" /\ table_name r = n.
Proof.
  unfold public_base_tables_ordered.
  rewrite merge_sort_Permutation, list_elem_of_fmap. split.
  - intros (r & -> & Hr). apply list_elem_of_filter in Hr as [[Hs Ht] Hr].
    by exists r.
  - intros (r & Hr & Hs & Ht & <-). exists r. split; [done|].
    by apply list_elem_of_filter.
Qed.

Lemma elem_of_public_tables (rows : list TableRow) (n : jsstring) :
  n ∈ public_tables rows <->
  exists r, r ∈ rows /\ table_schema r = js "public" /\ table_name r = n.
Proof.
  unfold public_tables. rewrite list_elem_of_fmap. split.
  - intros (r & -> & Hr). apply list_elem_of_filter in Hr as [Hs Hr].
    by exists r.
  - intros (r & Hr & Hs & <-). exists r. split; [done|].
    by apply list_elem_of_filter.
Qed.

(** C9, as the claim states it, fails on the server of [src/index.ts]:
    its statement has no condition on [table_type] and no [ORDER BY], so
    the view [active_users] is listed and the names come in the order of
    the catalog, [users] before [active_users]. *)
Lemma listing_010_has_views_unsorted :
  (V010.ListResources Demo.rt Demo.online).1 =
    inr (V010.resource_of <$>
           (Build_NameRow <$> [js "users"; js "active_users"; js "orders"])) /\
  Demo.table (js "public") (js "active_users") (js "VIEW") ∈ Demo.tables /\
  ~ Sorted name_le [js "users"; js "active_users"; js "orders"].
Proof.
  split; [vm_compute; reflexivity|]. split.
  - unfold Demo.tables. apply list_elem_of_further, list_elem_of_here.
  - intros Hsorted. apply Sorted_inv in Hsorted as [_ Hhd].
    apply HdRel_inv in Hhd. vm_compute in Hhd. discriminate Hhd.
Qed.

(** C9, amended. When the catalog can be read, [getTables] of the server
    of version 1.0.0 returns exactly the names of the base tables of the
    schema [public], views excluded, sorted in ascending order of their
    code points.  The statement of [src/index.ts] returns the names of
    all rows of [information_schema.tables] of the schema [public], views
    included, in the order the database yields them. *)
Theorem table_enumeration (rt : Runtime) (w : World rt) (rows : list TableRow) :
  pg_tables rt (db rt w) = inr rows ->
  (exists names,
     (V100.getTables rt w).1 = inr names /\
     (forall n, n ∈ names <->
        exists r, r ∈ rows /\ table_schema r = js "public" /\
                  table_type r = js "BASE TABLE" /\ table_name r = n) /\
     StronglySorted name_le names /\
     names ≡ₚ table_name <$>
                filter (fun r => table_schema r = js "public"
                                 /\ table_type r = js "BASE TABLE") rows) /\
  (V010.ListResources rt w).1 =
    inr (V010.resource_of <$>
           (Build_NameRow <$>
              (table_name <$>
                 filter (fun r => table_schema r = js "public") rows))).
Proof.
  intros Hrows. split.
  - exists (public_base_tables_ordered rows).
    rewrite V100_getTables, Hrows. split; [done|]. split; [|split].
    + apply elem_of_public_base_tables_ordered.
    + apply StronglySorted_merge_sort; apply _.
    + apply merge_sort_Permutation.
  - by rewrite V010_ListResources, Hrows.
Qed.

Lemma table_enumeration_witness :
  (V100.getTables Demo.rt Demo.online).1 = inr [js "orders"; js "users"] /\
  StronglySorted name_le [js "orders"; js "users"].
Proof.
  destruct (table_enumeration Demo.rt Demo.online Demo.tables eq_refl)
    as [(names & Hnames & _ & Hsorted & _) _].
  assert (names = [js "orders"; js "users"]) as <-.
  { assert (Heval : (V100.getTables Demo.rt Demo.online).1
                    = inr [js "orders"; js "users"])
      by (vm_compute; reflexivity).
    rewrite Heval in Hnames. by injection Hnames. }
  split; assumption.
Defined.

(** C5, as the claim states it, fails on the server of [src/index.ts]:
    its handler has no [try] around the catalog statement, and the error
    of the database leaves the handler. *)
Lemma listing_010_throws :
  (V010.ListResources Demo.rt Demo.offline).1 =
    inl (PostgresError (js "connection terminated")) /\
  (V010.ListResources Demo.rt Demo.offline).1 <> inr [].
Proof. split; [vm_compute; reflexivity | vm_compute; discriminate]. Qed.

(** C5, amended. When the catalog statement fails, the handler of the
    server of version 1.0.0 writes the error with [console.error] and
    returns an empty list of resources; the handler of [src/index.ts]
    throws the error of the database. *)
Theorem listing_when_catalog_fails (rt : Runtime) (w : World rt) (m : jsstring) :
  pg_tables rt (db rt w) = inl m ->
  ((V100.ListResources rt w).1 = inr [] /\
   stderr rt (V100.ListResources rt w).2 =
     stderr rt w ++ [(js "Error listing tables:", PostgresError m)]) /\
  (V010.ListResources rt w).1 = inl (PostgresError m).
Proof.
  intros Hfail. rewrite V100_ListResources, V010_ListResources, Hfail. done.
Qed.

Lemma listing_when_catalog_fails_witness :
  (V100.ListResources Demo.rt Demo.offline).1 = inr [] /\
  (V010.ListResources Demo.rt Demo.offline).1 =
    inl (PostgresError (js "connection terminated")).
Proof.
  destruct (listing_when_catalog_fails Demo.rt Demo.offline
              (js "connection terminated") eq_refl) as [[Hempty _] Hthrows].
  split; assumption.
Defined.

(** ** The tool list *)

(** C8, as the claim states it, fails on the server of [src/index.ts]:
    the description of its tool is one fixed text, the same with writes
    allowed and with writes not allowed. *)
Lemma description_010_fixed :
  allow_write_ops (Some (js "true")) = true /\
  allow_write_ops None = false /\
  listed_description (server010 Demo.rt (Some (js "true"))) Demo.online =
  listed_description (server010 Demo.rt None) Demo.online.
Proof. repeat split. Qed.

(** C8, amended. The server of version 1.0.0 describes its tool [query]
    with one text when writes are allowed and with another when they are
    not; the server of [src/index.ts] gives the same description under
    both settings. *)
Theorem description_and_policy (rt : Runtime) (env1 env2 : option jsstring)
    (w : World rt) :
  allow_write_ops env1 = true ->
  allow_write_ops env2 = false ->
  (listed_description (server100 rt env1) w =
     Some (js "Execute a SQL query (read or write operations allowed)") /\
   listed_description (server100 rt env2) w =
     Some (js "Execute a read-only SQL query (SELECT statements only)") /\
   listed_description (server100 rt env1) w <>
   listed_description (server100 rt env2) w) /\
  listed_description (server010 rt env1) w =
  listed_description (server010 rt env2) w.
Proof.
  intros H1 H2. unfold listed_description, server100, server010; simpl.
  unfold V100.ALLOW_WRITE_OPS. rewrite H1, H2.
  split; [|done]. split; [done|]. split; [done|]. discriminate.
Qed.

Lemma description_and_policy_witness :
  listed_description (server100 Demo.rt (Some (js "1"))) Demo.online <>
  listed_description (server100 Demo.rt (Some (js "yes"))) Demo.online.
Proof.
  apply (description_and_policy Demo.rt (Some (js "1")) (Some (js "yes"))
           Demo.online); reflexivity.
Defined.

(** ** Resource URIs *)

Lemma startsWith_app (p t : jsstring) : startsWith (p ++ t) p = true.
Proof. apply startsWith_prefix. by exists t. Qed.

(** The remainders of a class under [*]: the empty remainder comes first
    when the whole text is in the class, and is absent otherwise. *)
Lemma head_rep_class_end {A} (p : N -> bool) (g : jsstring -> list A) (x : A)
    (t : jsstring) :
  g [] = [x] -> (forall c s, g (c :: s) = []) ->
  head (flat_map g (rep_class p t)) = if forallb p t then Some x else None.
Proof.
  intros Hnil Hcons. induction t as [|d t IH]; simpl.
  - by rewrite Hnil.
  - destruct (p d); simpl.
    + rewrite flat_map_app. cbn [flat_map].
      by rewrite (Hcons d t), !app_nil_r.
    + by rewrite (Hcons d t).
Qed.

(** Group 1 of [^pre(.+)$]-like patterns: the whole text after the
    prefix, when it is not empty and lies in the class. *)
Lemma regex_capture_plus_end (pre : jsstring) (p : N -> bool) (s : jsstring) :
  regex_capture false (re_lit pre) (re_plus p) Eos s =
  if startsWith s pre && nonempty (drop (length pre) s)
     && forallb p (drop (length pre) s)
  then Some (drop (length pre) s) else None.
Proof.
  unfold regex_capture. rewrite rmatch_lit, startsWithIgnoreCase_false.
  destruct (startsWith s pre); [|done].
  cbn [flat_map]. rewrite app_nil_r.
  destruct (drop (length pre) s) as [|c t]; [done|].
  unfold re_plus. rewrite rmatch_Cat. cbn [rmatch].
  destruct (p c) eqn:Hc; cbn [flat_map forallb andb nonempty]; rewrite ?Hc;
    [|done].
  rewrite app_nil_r.
  change (rmatch false (Rep p) t) with (rep_class p t).
  rewrite (head_rep_class_end p _ (c :: t)).
  - done.
  - cbn. by rewrite firstn_all.
  - done.
Qed.

Lemma match_table_uri_built (t : jsstring) :
  V100.match_table_uri (js "table:///" ++ t) =
  if nonempty t && forallb re_dot t then Some t else None.
Proof.
  unfold V100.match_table_uri. rewrite regex_capture_plus_end.
  by rewrite startsWith_app, drop_app_length.
Qed.

Lemma match_table_uri_Some (uri t : jsstring) :
  V100.match_table_uri uri = Some t <->
  uri = js "table:///" ++ t /\ t <> [] /\
  (forall c, c ∈ t -> isLineTerminator c = false).
Proof.
  assert (Hdot : forallb re_dot t = true <->
                 forall c, c ∈ t -> isLineTerminator c = false).
  { rewrite forallb_forall. unfold re_dot. split; intros H c Hc.
    - apply list_elem_of_In, H, negb_true_iff in Hc. exact Hc.
    - apply negb_true_iff, H, list_elem_of_In, Hc. }
  split.
  - unfold V100.match_table_uri. rewrite regex_capture_plus_end.
    destruct (startsWith uri (js "table:///")) eqn:Hpre; [|done].
    apply startsWith_prefix in Hpre as [rest ->].
    rewrite drop_app_length. cbn [andb].
    destruct (nonempty rest) eqn:Hne; [|done].
    destruct (forallb re_dot rest) eqn:Hall; [|done].
    intros [= <-]. split; [done|]. split; [by destruct rest|].
    by apply Hdot.
  - intros (-> & Hne & Hlt). rewrite match_table_uri_built.
    apply Hdot in Hlt as ->. by destruct t.
Qed.

Section ReadResource.
Context (rt : Runtime).

Lemma db_sent (st : Statement) (d : DB rt) (w : World rt) :
  db rt (sent rt st d w) = d.
Proof. reflexivity. Qed.

Lemma V100_ReadResource (uri t : jsstring) (w : World rt) :
  V100.match_table_uri uri = Some t ->
  V100.ReadResource rt uri w =
  let w1 := sent rt SelectPublicBaseTablesOrdered (db rt w) w in
  let failed m :=
    inl (Error (js "Error reading table " ++ t ++ js ": " ++ m)) in
  match pg_tables rt (db rt w) with
  | inl m => (failed m, w1)
  | inr rows =>
      if includes (public_base_tables_ordered rows) t then
        (match pg_sample rt t 100 (db rt w) with
         | inl m => failed m
         | inr sample =>
             inr [ {| rc_uri := uri; rc_mimeType := js "application/json";
                      rc_text := JSON_stringify rt sample |} ]
         end,
         sent rt (SelectSample t 100) (db rt w) w1)
      else (failed (js "Table not found: " ++ t), w1)
  end.
Proof.
  intros Huri. unfold V100.ReadResource. rewrite Huri.
  unfold try_catch, bind. rewrite V100_getTables.
  destruct (pg_tables rt (db rt w)) as [m|rows]; [done|].
  cbv zeta.
  destruct (includes (public_base_tables_ordered rows) t); [|done].
  cbn [negb]. unfold select_sample, rejected. rewrite db_sent.
  by destruct (pg_sample rt t 100 (db rt w)).
Qed.

Lemma V010_ReadResource (uri : jsstring) (url : URL) (w : World rt) :
  new_URL rt uri = inr url ->
  protocol url = js "postgres:" ->
  V010.ReadResource rt uri w =
  let t := V010.tableName_of url in
  let w1 := sent rt (SelectColumns t) (db rt w) w in
  match pg_columns rt t (db rt w) with
  | inl m => (inl (PostgresError m), w1)
  | inr columns =>
      (match pg_sample rt t 10 (db rt w) with
       | inl m => inl (PostgresError m)
       | inr sample =>
           inr [ {| rc_uri := uri; rc_mimeType := js "application/json";
                    rc_text := JSON_stringify_schema_sample rt columns sample |} ]
       end,
       sent rt (SelectSample t 10) (db rt w) w1)
  end.
Proof.
  intros Hurl Hproto. unfold V010.ReadResource. rewrite Hurl, Hproto.
  rewrite bool_decide_eq_true_2 by reflexivity. cbn [negb]. cbv zeta.
  unfold bind, select_columns, select_sample, rejected.
  destruct (pg_columns rt _ (db rt w)) as [m|columns]; [done|].
  rewrite db_sent. by destruct (pg_sample rt _ 10 (db rt w)).
Qed.

End ReadResource.

(** C3, as the claim states it, fails.  In the server of version 1.0.0
    the pattern [(.+)] does not match a line terminator, so the URI built
    for a table whose name contains a newline is rejected.  In the server
    of [src/index.ts] the URI [postgres://table/users] has the host
    [table] and the path [/users]; the prefix [/table/] is not found in
    the path and the name read back is [/users]. *)
Lemma uri_round_trip_fails :
  V100.match_table_uri
    (res_uri (V100.resource_of (js "a" ++ [0x0A] ++ js "b"))) = None /\
  whatwg_URL (res_uri (V010.resource_of (Build_NameRow (js "users")))) =
    inr {| protocol := js "postgres:"; pathname := js "/users" |} /\
  V010.tableName_of {| protocol := js "postgres:"; pathname := js "/users" |}
    = js "/users" /\
  js "/users" <> js "users".
Proof. repeat split; vm_compute; (reflexivity || discriminate). Qed.

(** C3, amended. When the catalog can be read, both servers list exactly
    one resource per table name of the enumeration, in its order, with
    the URI built from that name.  In the server of version 1.0.0, for
    every table name that is not empty and contains no line terminator,
    parsing the URI built for it recovers exactly that name. *)
Theorem one_resource_per_table (rt : Runtime) (w : World rt)
    (rows : list TableRow) :
  pg_tables rt (db rt w) = inr rows ->
  (exists names resources,
     (V100.getTables rt w).1 = inr names /\
     (V100.ListResources rt w).1 = inr resources /\
     length resources = length names /\
     forall (i : nat) t, names !! i = Some t ->
       res_uri <$> resources !! i = Some (js "table:///" ++ t)) /\
  (exists names resources,
     (select_public_tables rt w).1 = inr (Build_NameRow <$> names) /\
     (V010.ListResources rt w).1 = inr resources /\
     length resources = length names /\
     forall (i : nat) t, names !! i = Some t ->
       res_uri <$> resources !! i = Some (js "postgres://table/" ++ t)) /\
  (forall t : jsstring,
     t <> [] -> (forall c, c ∈ t -> isLineTerminator c = false) ->
     V100.match_table_uri (res_uri (V100.resource_of t)) = Some t).
Proof.
  intros Hrows. split; [|split].
  - exists (public_base_tables_ordered rows),
      (V100.resource_of <$> public_base_tables_ordered rows).
    rewrite V100_getTables, V100_ListResources, Hrows.
    split; [done|]. split; [done|]. split; [apply length_fmap|].
    intros i t Hi. by rewrite list_lookup_fmap, Hi.
  - exists (public_tables rows),
      (V010.resource_of <$> (Build_NameRow <$> public_tables rows)).
    rewrite V010_ListResources, Hrows.
    split; [unfold select_public_tables, catalog_query; by rewrite Hrows|].
    split; [done|]. split; [by rewrite !length_fmap|].
    intros i t Hi. by rewrite !list_lookup_fmap, Hi.
  - intros t Hne Hlt. by apply match_table_uri_Some.
Qed.

Lemma one_resource_per_table_witness :
  (V100.ListResources Demo.rt Demo.online).1 =
    inr (V100.resource_of <$> [js "orders"; js "users"]) /\
  V100.match_table_uri (res_uri (V100.resource_of (js "orders")))
    = Some (js "orders").
Proof.
  destruct (one_resource_per_table Demo.rt Demo.online Demo.tables eq_refl)
    as (_ & _ & Hround).
  split; [vm_compute; reflexivity|].
  apply Hround; [discriminate|].
  intros c Hc. apply list_elem_of_In in Hc. simpl in Hc.
  repeat (destruct Hc as [<-|Hc]; [reflexivity|]). destruct Hc.
Defined.

(** A concrete name is not in a concrete list of names. *)
Ltac not_in_names :=
  let H := fresh "H" in
  rewrite list_elem_of_In; vm_compute; intros H;
  repeat (destruct H as [H|H]; [discriminate H|]); exact H.

(** C4, as the claim states it, fails on the server of [src/index.ts]:
    its handler does not look the table up.  For a URI that names the
    table [ghost], which the catalog does not have, it sends the column
    statement and the sample statement, and the failure of the read is the
    error of the database.  The same happens for the URI of the shape the
    server itself builds, with the name [/ghost]. *)
Lemma read_010_samples_missing_table :
  (js "ghost" ∉ public_tables Demo.tables) /\
  sent_during (V010.ReadResource Demo.rt (js "postgres:///table/ghost"))
    Demo.online
  = [SelectColumns (js "ghost"); SelectSample (js "ghost") 10] /\
  (V010.ReadResource Demo.rt (js "postgres:///table/ghost") Demo.online).1
  = inl (PostgresError (js "relation does not exist")) /\
  sent_during (V010.ReadResource Demo.rt (js "postgres://table/ghost"))
    Demo.online
  = [SelectColumns (js "/ghost"); SelectSample (js "/ghost") 10].
Proof.
  split; [|repeat split; vm_compute; reflexivity].
  not_in_names.
Qed.

(** C4, amended. In the server of version 1.0.0, for every URI
    [table:///t] whose name [t] is not in the list [getTables] returns,
    [readResource] throws an error that reports [Table not found: t],
    after the catalog statement alone: no sample statement is sent.  The
    server of [src/index.ts] does not check the name: for every URI that
    parses with the protocol [postgres:], it sends the column statement
    and, when that succeeds, the sample statement for the name it
    extracts. *)
Theorem read_of_missing_table (rt : Runtime) (w : World rt) (uri : jsstring) :
  (forall t names,
     uri = js "table:///" ++ t -> t <> [] ->
     (forall c, c ∈ t -> isLineTerminator c = false) ->
     (V100.getTables rt w).1 = inr names -> t ∉ names ->
     (V100.ReadResource rt uri w).1 =
       inl (Error (js "Error reading table " ++ t ++ js ": "
                     ++ js "Table not found: " ++ t)) /\
     sent_during (V100.ReadResource rt uri) w = [SelectPublicBaseTablesOrdered] /\
     (forall name limit,
        SelectSample name limit ∉ sent_during (V100.ReadResource rt uri) w)) /\
  (forall url columns,
     new_URL rt uri = inr url -> protocol url = js "postgres:" ->
     pg_columns rt (V010.tableName_of url) (db rt w) = inr columns ->
     sent_during (V010.ReadResource rt uri) w =
       [SelectColumns (V010.tableName_of url);
        SelectSample (V010.tableName_of url) 10]).
Proof.
  split.
  - intros t names Huri Hne Hlt Hnames Hnot.
    assert (Hmatch : V100.match_table_uri uri = Some t)
      by (by apply match_table_uri_Some).
    rewrite V100_getTables in Hnames. cbn [fst] in Hnames.
    assert (Hrun : V100.ReadResource rt uri w =
              (inl (Error (js "Error reading table " ++ t ++ js ": "
                             ++ js "Table not found: " ++ t)),
               sent rt SelectPublicBaseTablesOrdered (db rt w) w)).
    { rewrite (V100_ReadResource rt uri t w Hmatch). cbv zeta.
      destruct (pg_tables rt (db rt w)) as [m|rows]; [done|].
      injection Hnames as <-. unfold includes.
      by rewrite bool_decide_eq_false_2. }
    assert (Hsent : sent_during (V100.ReadResource rt uri) w
                    = [SelectPublicBaseTablesOrdered]).
    { apply sent_during_sent. by rewrite Hrun. }
    split; [by rewrite Hrun|]. split; [done|].
    intros name limit. rewrite Hsent, list_elem_of_singleton. discriminate.
  - intros url columns Hurl Hproto Hcolumns. apply sent_during_sent.
    rewrite (V010_ReadResource rt uri url w Hurl Hproto). cbv zeta.
    rewrite Hcolumns. cbn. by rewrite <- app_assoc.
Qed.

Lemma read_of_missing_table_witness :
  (V100.ReadResource Demo.rt (js "table:///ghost") Demo.online).1 =
    inl (Error (js "Error reading table ghost: Table not found: ghost")) /\
  sent_during (V100.ReadResource Demo.rt (js "table:///ghost")) Demo.online
  = [SelectPublicBaseTablesOrdered] /\
  sent_during (V010.ReadResource Demo.rt (js "postgres:///table/ghost"))
    Demo.online
  = [SelectColumns (js "ghost"); SelectSample (js "ghost") 10].
Proof.
  destruct (read_of_missing_table Demo.rt Demo.online (js "table:///ghost"))
    as [H100 _].
  destruct (read_of_missing_table Demo.rt Demo.online
              (js "postgres:///table/ghost")) as [_ H010].
  destruct (H100 (js "ghost") [js "orders"; js "users"]) as (Hthrow & Hsent & _).
  - reflexivity.
  - discriminate.
  - intros c Hc. apply list_elem_of_In in Hc. simpl in Hc.
    repeat (destruct Hc as [<-|Hc]; [reflexivity|]). destruct Hc.
  - vm_compute. reflexivity.
  - not_in_names.
  - split; [exact Hthrow|]. split; [exact Hsent|].
    exact (H010 {| protocol := js "postgres:"; pathname := js "/table/ghost" |}
             [] eq_refl eq_refl eq_refl).
Defined.

(** ** The URIs of [src/index.ts] under [whatwg_URL] *)

Lemma isPlain_range (c : N) :
  isPlain c = true ->
  (0x30 <= c <= 0x39) \/ (0x41 <= c <= 0x5A) \/ (0x61 <= c <= 0x7A) \/ c = 0x5F.
Proof.
  unfold isPlain, isAsciiAlpha, isAsciiDigit.
  rewrite !orb_true_iff, !andb_true_iff, !N.leb_le, N.eqb_eq. lia.
Qed.

(** Ranges of code units as boolean tests, decided by [lia]. *)
Ltac unit_ranges :=
  repeat match goal with
    | |- context [N.eqb ?a ?b] => destruct (N.eqb_spec a b); try lia
    | |- context [N.leb ?a ?b] => destruct (N.leb_spec a b); try lia
    | |- context [N.ltb ?a ?b] => destruct (N.ltb_spec a b); try lia
    end; cbn [andb orb negb]; try reflexivity; try lia.

Lemma plain_not_listed (l : list N) (c : N) :
  isPlain c = true -> forallb (fun d => negb (isPlain d)) l = true ->
  oneOf l c = false.
Proof.
  intros Hc Hl. unfold oneOf. induction l as [|d l IH]; simpl; [done|].
  simpl in Hl. apply andb_true_iff in Hl as [Hd Hl]. rewrite (IH Hl).
  destruct (N.eqb_spec c d) as [->|]; [|done]. by rewrite Hc in Hd.
Qed.

Lemma strip_start_plain (s : jsstring) (c : N) :
  isPlain c = true -> strip_start (c :: s) = c :: s.
Proof. intros Hc%isPlain_range. simpl. unit_ranges. Qed.

Lemma break_at_plain (l : list N) (t : jsstring) :
  forallb isPlain t = true -> forallb (fun d => negb (isPlain d)) l = true ->
  break_at (oneOf l) t = (t, []).
Proof.
  intros Ht Hl. induction t as [|c t IH]; simpl; [done|].
  simpl in Ht. apply andb_true_iff in Ht as [Hc Ht].
  by rewrite (plain_not_listed l c Hc Hl), (IH Ht).
Qed.

Lemma split_on_plain (t : jsstring) :
  forallb isPlain t = true -> split_on 0x2F t = [t].
Proof.
  induction t as [|c t IH]; simpl; [done|].
  intros [Hc Ht]%andb_true_iff. rewrite (IH Ht).
  apply isPlain_range in Hc. by destruct (N.eqb_spec c 0x2F); [lia|].
Qed.

Lemma codePoints_plain (t : jsstring) :
  forallb isPlain t = true -> codePoints t = t.
Proof.
  induction t as [|c t IH]; [done|].
  intros [Hc Ht]%andb_true_iff. cbn [codePoints].
  destruct t as [|d t]; [done|]. rewrite (IH Ht).
  apply isPlain_range in Hc.
  by destruct (N.leb_spec 0xD800 c); [lia|].
Qed.

Lemma percentEncode_plain (t : jsstring) :
  forallb isPlain t = true -> percentEncode pathSet t = t.
Proof.
  intros Ht. unfold percentEncode. rewrite (codePoints_plain t Ht).
  induction t as [|c t IH]; [done|].
  cbn [forallb flat_map] in *. apply andb_true_iff in Ht as [Hc Ht].
  rewrite (IH Ht). unfold percentEncodeAfter.
  assert (pathSet c = false) as ->; [|done].
  apply isPlain_range in Hc.
  unfold pathSet, querySet, c0ControlSet, oneOf. simpl. unit_ranges.
Qed.

Lemma not_dots_plain (t : jsstring) :
  forallb isPlain t = true -> isSingleDot t = false /\ isDoubleDot t = false.
Proof.
  destruct t as [|c t]; [done|]. simpl.
  intros [Hc _]%andb_true_iff. apply isPlain_range in Hc.
  assert (asciiLower c <> 0x2E /\ asciiLower c <> 0x25) as [H1 H2].
  { unfold asciiLower. split; unit_ranges. }
  unfold isSingleDot, isDoubleDot. cbn [fmap list_fmap].
  rewrite !bool_decide_eq_false_2; [done| | | | | |];
    intros [= ? ?]; done.
Qed.

Lemma pathname_after_slash_plain (t : jsstring) :
  forallb isPlain t = true -> pathname_after_slash t = 0x2F :: t.
Proof.
  intros Ht. unfold pathname_after_slash.
  rewrite (break_at_plain [0x3F; 0x23] t Ht eq_refl). cbn [fst].
  rewrite (split_on_plain t Ht). cbn [path_state].
  rewrite (percentEncode_plain t Ht).
  destruct (not_dots_plain t Ht) as [-> ->]. simpl. by rewrite app_nil_r.
Qed.

Lemma strip_start_rev (s : jsstring) (e : N) :
  last s = Some e -> (e <=? 0x20) = false -> strip_start (rev s) = rev s.
Proof.
  destruct s as [|d s _] using rev_ind; [discriminate|].
  rewrite last_snoc. intros [= ->] He.
  rewrite rev_app_distr. simpl. by rewrite He.
Qed.

Lemma filter_forallb (p : N -> bool) (l : jsstring) :
  forallb p l = true -> filter (fun d => p d = true) l = l.
Proof.
  induction l as [|d l IH]; [done|]. simpl.
  intros [Hd Hl]%andb_true_iff.
  rewrite filter_cons_True by exact Hd. f_equal. by apply IH.
Qed.

(** An input that neither begins nor ends with a C0 control or a space
    and has no tab or newline is parsed as it is. *)
Lemma preprocess_id (c e : N) (s : jsstring) :
  (c <=? 0x20) = false -> last (c :: s) = Some e -> (e <=? 0x20) = false ->
  forallb (fun d => negb (oneOf [0x09; 0x0A; 0x0D] d)) (c :: s) = true ->
  preprocess (c :: s) = c :: s.
Proof.
  intros Hc Hlast He Hall. unfold preprocess.
  assert (strip_start (c :: s) = c :: s) as -> by (simpl; by rewrite Hc).
  rewrite (strip_start_rev _ e Hlast He), rev_involutive.
  by apply (filter_forallb (fun d => negb (oneOf [0x09; 0x0A; 0x0D] d))).
Qed.

Lemma last_plain (pre t : jsstring) (d : N) :
  last pre = Some d -> (d <=? 0x20) = false -> forallb isPlain t = true ->
  exists e, last (pre ++ t) = Some e /\ (e <=? 0x20) = false.
Proof.
  intros Hpre Hd Ht. destruct t as [|e t _] using rev_ind.
  - exists d. by rewrite app_nil_r.
  - exists e. rewrite app_assoc, last_snoc. split; [done|].
    rewrite forallb_app in Ht. apply andb_true_iff in Ht as [_ He].
    simpl in He. rewrite andb_true_r in He.
    apply isPlain_range in He. unit_ranges.
Qed.

(** The parse of a URI [postgres://table/...] that needs no
    preprocessing: the host is [table], the path is what follows. *)
Lemma whatwg_URL_postgres_table (p : jsstring) :
  preprocess (js "postgres://table/" ++ p) = js "postgres://table/" ++ p ->
  whatwg_URL (js "postgres://table/" ++ p) =
    inr {| protocol := js "postgres:"; pathname := pathname_after_slash p |}.
Proof.
  intros H. unfold whatwg_URL. rewrite H.
  lazy -[pathname_after_slash]. reflexivity.
Qed.

(** For every table name made of letters, digits and underscores, the
    URI that [src/index.ts] builds has the host [table] and the path
    [/name]: line 71 finds no prefix [/table/] in it, and the name the
    handler reads back begins with a slash. *)
Lemma uri_010_reads_back_with_slash (t : jsstring) :
  forallb isPlain t = true ->
  whatwg_URL (res_uri (V010.resource_of (Build_NameRow t))) =
    inr {| protocol := js "postgres:"; pathname := 0x2F :: t |} /\
  V010.tableName_of {| protocol := js "postgres:"; pathname := 0x2F :: t |}
    = 0x2F :: t /\
  0x2F :: t <> t.
Proof.
  intros Ht. split; [|split].
  - unfold V010.resource_of. cbn [res_uri row_table_name].
    destruct (last_plain (js "postgres://table/") t 0x2F eq_refl eq_refl Ht)
      as (e & Hlast & He).
    rewrite whatwg_URL_postgres_table.
    + by rewrite (pathname_after_slash_plain t Ht).
    + change (js "postgres://table/" ++ t)
        with (0x70 :: js "ostgres://table/" ++ t) in *.
      apply (preprocess_id 0x70 e _ eq_refl Hlast He).
      rewrite app_comm_cons, forallb_app. apply andb_true_iff. split; [done|].
      apply forallb_forall. intros d Hd.
      rewrite forallb_forall in Ht.
      by rewrite (plain_not_listed [0x09; 0x0A; 0x0D] d (Ht d Hd) eq_refl).
  - unfold V010.tableName_of, regex_remove, pathname.
    rewrite rmatch_lit, startsWithIgnoreCase_false.
    destruct (startsWith (0x2F :: t) (js "/table/")) eqn:Hpre; [|done].
    apply startsWith_prefix in Hpre as [rest Hrest].
    injection Hrest as ->. by vm_compute in Ht.
  - intros Heq. apply (f_equal length) in Heq. simpl in Heq. lia.
Qed.

(** * Further properties of the handlers *)

(** ** Calls that are rejected before the gate *)

Lemma allow_write_ops_true (env_var : option jsstring) :
  allow_write_ops env_var = true <->
  env_var = Some (js "true") \/ env_var = Some (js "1").
Proof.
  unfold allow_write_ops. by rewrite orb_true_iff, !bool_decide_eq_true.
Qed.

Lemma zod_parse_string_field_fails (rt : Runtime) key arguments (w : World rt) :
  (forall fields s, arguments = Some (JObject fields) ->
                    property key fields <> Some (JString s)) ->
  zod_parse_string_field rt key arguments w
  = (inl (ZodError (zod_message rt arguments)), w).
Proof.
  intros Hbad. unfold zod_parse_string_field.
  destruct arguments as [[| | | | |fields]|]; try reflexivity.
  destruct (property key fields) as [[| | |s| |]|] eqn:Hp; try reflexivity.
  by destruct (Hbad fields s eq_refl).
Qed.

Lemma V010_CallTool_invalid (rt : Runtime) env_allow arguments (w : World rt) :
  (forall fields s, arguments = Some (JObject fields) ->
                    property (js "sql") fields <> Some (JString s)) ->
  V010.CallTool rt env_allow (js "query") arguments w
  = (inl (ZodError (zod_message rt arguments)), w).
Proof.
  intros Hbad. unfold V010.CallTool.
  rewrite bool_decide_eq_true_2 by reflexivity. unfold bind at 1.
  by rewrite (zod_parse_string_field_fails rt _ arguments w Hbad).
Qed.

Lemma V100_CallTool_invalid (rt : Runtime) env_allow arguments (w : World rt) :
  (forall fields s, arguments = Some (JObject fields) ->
                    property (js "query") fields <> Some (JString s)) ->
  V100.CallTool rt env_allow (js "query") arguments w
  = (inl (ZodError (zod_message rt arguments)), w).
Proof.
  intros Hbad. unfold V100.CallTool.
  rewrite bool_decide_eq_true_2 by reflexivity. unfold bind at 1.
  by rewrite (zod_parse_string_field_fails rt _ arguments w Hbad).
Qed.

(** X1. A call that names any tool other than [query] (the comparison is
    exact, so [Query] is another tool) throws, whatever its arguments and
    whatever the write setting, and reaches neither the schema check nor
    the database: [src/index.ts] throws [Tool not found: name], the
    server of version 1.0.0 throws [Unknown tool: name]. *)
Theorem unknown_tool_throws (rt : Runtime) (env_allow : option jsstring)
    (name : jsstring) (arguments : option JSON) (w : World rt) :
  name <> js "query" ->
  V010.CallTool rt env_allow name arguments w
  = (inl (Error (js "Tool not found: " ++ name)), w) /\
  V100.CallTool rt env_allow name arguments w
  = (inl (Error (js "Unknown tool: " ++ name)), w).
Proof.
  intros Hname. unfold V010.CallTool, V100.CallTool.
  by rewrite !bool_decide_eq_false_2.
Qed.

Lemma unknown_tool_throws_witness :
  V010.CallTool Demo.rt (Some (js "true")) (js "Query")
    (arguments_with (js "sql") (js "SELECT 1")) Demo.online
  = (inl (Error (js "Tool not found: Query")), Demo.online).
Proof.
  apply (unknown_tool_throws Demo.rt (Some (js "true")) (js "Query")
           (arguments_with (js "sql") (js "SELECT 1")) Demo.online).
  discriminate.
Defined.

(** X2. A call of [query] whose arguments are not an object with a string
    under the key the server reads ([sql] in [src/index.ts], [query] in
    the server of version 1.0.0) throws the error of the schema, before
    the write gate: nothing is sent to the database, also when writes are
    allowed. *)
Theorem invalid_arguments_throw (rt : Runtime) (env_allow : option jsstring)
    (arguments : option JSON) (w : World rt) :
  ((forall fields s, arguments = Some (JObject fields) ->
                     property (js "sql") fields <> Some (JString s)) ->
   V010.CallTool rt env_allow (js "query") arguments w
   = (inl (ZodError (zod_message rt arguments)), w)) /\
  ((forall fields s, arguments = Some (JObject fields) ->
                     property (js "query") fields <> Some (JString s)) ->
   V100.CallTool rt env_allow (js "query") arguments w
   = (inl (ZodError (zod_message rt arguments)), w)).
Proof.
  split; intros Hbad.
  - by apply V010_CallTool_invalid.
  - by apply V100_CallTool_invalid.
Qed.

Lemma invalid_arguments_throw_witness :
  V010.CallTool Demo.rt (Some (js "true")) (js "query")
    (Some (JObject [(js "sql", JNumber (js "1"))])) Demo.online
  = (inl (ZodError (js "Required")), Demo.online) /\
  V100.CallTool Demo.rt (Some (js "true")) (js "query") None Demo.online
  = (inl (ZodError (js "Required")), Demo.online).
Proof.
  split.
  - apply (proj1 (invalid_arguments_throw Demo.rt (Some (js "true"))
                    (Some (JObject [(js "sql", JNumber (js "1"))]))
                    Demo.online)).
    intros fields s [= <-]. discriminate.
  - apply (proj2 (invalid_arguments_throw Demo.rt (Some (js "true")) None
                    Demo.online)).
    intros fields s. discriminate.
Defined.

(** ** The write setting *)

(** X3. Writes stay closed unless the environment variable is exactly
    [true] or [1]: for every other value, and when the variable is not
    set, a statement classified as a write is refused by both servers and
    nothing is sent. *)
Theorem writes_refused_unless_opted_in (rt : Runtime)
    (env_allow : option jsstring) (fields : list (jsstring * JSON))
    (text : jsstring) (w : World rt) :
  env_allow <> Some (js "true") -> env_allow <> Some (js "1") ->
  (property (js "sql") fields = Some (JString text) ->
   V010.classify text = Write ->
   V010.CallTool rt env_allow (js "query") (Some (JObject fields)) w
   = (inr V010.refusal, w)) /\
  (property (js "query") fields = Some (JString text) ->
   V100.classify text = Write ->
   V100.CallTool rt env_allow (js "query") (Some (JObject fields)) w
   = (inr V100.refusal, w)).
Proof.
  intros Htrue Hone.
  assert (allow_write_ops env_allow = false) as Hclosed.
  { destruct (allow_write_ops env_allow) eqn:Hallow; [|done].
    apply allow_write_ops_true in Hallow as [?|?]; done. }
  split; intros Hfield Hwrite.
  - rewrite (V010_CallTool_query rt env_allow fields text w Hfield), Hclosed.
    unfold V010.classify in Hwrite. by destruct (V010.isReadonly text).
  - rewrite (V100_CallTool_query rt env_allow fields text w Hfield), Hclosed.
    unfold V100.classify in Hwrite. by destruct (V100.isWriteOperation text).
Qed.

Lemma writes_refused_unless_opted_in_witness :
  V010.CallTool Demo.rt (Some (js "TRUE")) (js "query")
    (arguments_with (js "sql") (js "DROP TABLE t")) Demo.online
  = (inr V010.refusal, Demo.online) /\
  V100.CallTool Demo.rt (Some (js "yes")) (js "query")
    (arguments_with (js "query") (js "DROP TABLE t")) Demo.online
  = (inr V100.refusal, Demo.online).
Proof.
  split.
  - apply (proj1 (writes_refused_unless_opted_in Demo.rt (Some (js "TRUE"))
                    [(js "sql", JString (js "DROP TABLE t"))]
                    (js "DROP TABLE t") Demo.online
                    ltac:(discriminate) ltac:(discriminate)));
      reflexivity.
  - apply (proj2 (writes_refused_unless_opted_in Demo.rt (Some (js "yes"))
                    [(js "query", JString (js "DROP TABLE t"))]
                    (js "DROP TABLE t") Demo.online
                    ltac:(discriminate) ltac:(discriminate)));
      reflexivity.
Defined.

(** X4. With the variable set to [true] or to [1], both servers send
    every statement, whatever its classification, exactly once; the state
    of the database after the call is the one the statement leaves, and
    when the database accepts the statement the response is one text
    block with the rows as JSON and no [isError]. *)
Theorem opted_in_runs_every_statement (rt : Runtime)
    (env_allow : option jsstring) (fields : list (jsstring * JSON))
    (text : jsstring) (w : World rt) :
  env_allow = Some (js "true") \/ env_allow = Some (js "1") ->
  (property (js "sql") fields = Some (JString text) ->
   let call := V010.CallTool rt env_allow (js "query") (Some (JObject fields)) in
   sent_during call w = [Unsafe text] /\
   db rt (call w).2 = (pg_unsafe rt text (db rt w)).2 /\
   forall result, (pg_unsafe rt text (db rt w)).1 = inr result ->
     (call w).1 = inr {| content := [ text_content (JSON_stringify rt result) ];
                         isError := None |}) /\
  (property (js "query") fields = Some (JString text) ->
   let call := V100.CallTool rt env_allow (js "query") (Some (JObject fields)) in
   sent_during call w = [Unsafe text] /\
   db rt (call w).2 = (pg_unsafe rt text (db rt w)).2 /\
   forall result, (pg_unsafe rt text (db rt w)).1 = inr result ->
     (call w).1 = inr {| content := [ text_content (JSON_stringify rt result) ];
                         isError := None |}).
Proof.
  intros Hopen. apply allow_write_ops_true in Hopen.
  split; intros Hfield call; subst call; unfold sent_during.
  - rewrite (V010_CallTool_query rt env_allow fields text w Hfield), Hopen.
    cbn [negb andb]. split; [apply sent_during_run_query_010|].
    rewrite V010_run_query. split; [done|]. by intros result ->.
  - rewrite (V100_CallTool_query rt env_allow fields text w Hfield), Hopen.
    rewrite andb_false_r. split; [apply sent_during_run_query_100|].
    rewrite V100_run_query. split; [done|]. by intros result ->.
Qed.

Lemma opted_in_runs_every_statement_witness :
  sent_during
    (V010.CallTool Demo.rt (Some (js "1")) (js "query")
       (arguments_with (js "sql") (js "DROP TABLE t")))
    Demo.online = [Unsafe (js "DROP TABLE t")] /\
  sent_during
    (V100.CallTool Demo.rt (Some (js "true")) (js "query")
       (arguments_with (js "query") (js "DROP TABLE t")))
    Demo.online = [Unsafe (js "DROP TABLE t")].
Proof.
  split.
  - apply (proj1 (opted_in_runs_every_statement Demo.rt (Some (js "1"))
                    [(js "sql", JString (js "DROP TABLE t"))]
                    (js "DROP TABLE t") Demo.online (or_intror eq_refl))).
    reflexivity.
  - apply (proj2 (opted_in_runs_every_statement Demo.rt (Some (js "true"))
                    [(js "query", JString (js "DROP TABLE t"))]
                    (js "DROP TABLE t") Demo.online (or_introl eq_refl))).
    reflexivity.
Defined.

(** ** The tool list and the tool call together *)

(** X5. Each server lists one tool; it is named [query], and a call that
    gives a string under the one property the list requires passes the
    schema check of that server's handler and gets a normal response.
    The two servers do not accept each other's arguments: [src/index.ts]
    rejects an object with only [query], the server of version 1.0.0
    rejects an object with only [sql]. *)
Theorem listed_schema_is_the_parsed_one (rt : Runtime)
    (env_allow : option jsstring) (text : jsstring) (w : World rt) :
  (forall tool r, tool ∈ V010.ListTools -> r ∈ tool_required tool ->
     tool_name tool = js "query" /\
     (exists result w',
        V010.CallTool rt env_allow (tool_name tool) (arguments_with r text) w
        = (inr result, w')) /\
     V100.CallTool rt env_allow (js "query") (arguments_with r text) w
     = (inl (ZodError (zod_message rt (arguments_with r text))), w)) /\
  (forall tool r, tool ∈ V100.ListTools env_allow -> r ∈ tool_required tool ->
     tool_name tool = js "query" /\
     (exists result w',
        V100.CallTool rt env_allow (tool_name tool) (arguments_with r text) w
        = (inr result, w')) /\
     V010.CallTool rt env_allow (js "query") (arguments_with r text) w
     = (inl (ZodError (zod_message rt (arguments_with r text))), w)).
Proof.
  split; intros tool r Htool Hr.
  - apply list_elem_of_singleton in Htool as ->.
    apply list_elem_of_singleton in Hr as ->.
    split; [done|]. split.
    + cbn [tool_name]. unfold arguments_with.
      rewrite (V010_CallTool_query rt env_allow _ text w) by reflexivity.
      destruct (negb (allow_write_ops env_allow) && negb (V010.isReadonly text));
        [by eexists _, _|].
      rewrite V010_run_query. by eexists _, _.
    + apply V100_CallTool_invalid.
      intros fields s [= <-]. vm_compute. discriminate.
  - apply list_elem_of_singleton in Htool as ->.
    apply list_elem_of_singleton in Hr as ->.
    split; [done|]. split.
    + cbn [tool_name]. unfold arguments_with.
      rewrite (V100_CallTool_query rt env_allow _ text w) by reflexivity.
      destruct (V100.isWriteOperation text && negb (allow_write_ops env_allow));
        [by eexists _, _|].
      rewrite V100_run_query. by eexists _, _.
    + apply V010_CallTool_invalid.
      intros fields s [= <-]. vm_compute. discriminate.
Qed.

Lemma listed_schema_is_the_parsed_one_witness :
  exists result w',
    V010.CallTool Demo.rt None (js "query")
      (arguments_with (js "sql") (js "SELECT 1")) Demo.online
    = (inr result, w').
Proof.
  destruct (listed_schema_is_the_parsed_one Demo.rt None (js "SELECT 1")
              Demo.online) as [H010 _].
  destruct (H010 _ (js "sql") (list_elem_of_here _ _) (list_elem_of_here _ _))
    as (_ & Hcall & _).
  exact Hcall.
Defined.

(** ** The two classifiers on arbitrary statements *)

Lemma trimStart_app_space (l s : jsstring) :
  forallb isStrWhiteSpaceChar l = true -> trimStart (l ++ s) = trimStart s.
Proof.
  induction l as [|c l IH]; [done|]. simpl.
  intros [Hc Hl]%andb_true_iff. rewrite Hc. by apply IH.
Qed.

Lemma trimStart_app_text (q r : jsstring) :
  trimStart q <> [] -> trimStart (q ++ r) = trimStart q ++ r.
Proof.
  induction q as [|c q IH]; [done|]. simpl.
  by destruct (isStrWhiteSpaceChar c).
Qed.

Lemma trimStart_nil_space (q : jsstring) :
  trimStart q = [] -> forallb isStrWhiteSpaceChar q = true.
Proof.
  induction q as [|c q IH]; [done|]. simpl.
  destruct (isStrWhiteSpaceChar c); [exact IH | discriminate].
Qed.

Lemma forallb_rev (p : N -> bool) (l : jsstring) :
  forallb p l = true -> forallb p (rev l) = true.
Proof.
  rewrite !forallb_forall. intros H c Hc. apply H. by apply in_rev.
Qed.

Lemma trimEnd_app_space (s r : jsstring) :
  forallb isStrWhiteSpaceChar r = true -> trimEnd (s ++ r) = trimEnd s.
Proof.
  intros Hr. unfold trimEnd. rewrite rev_app_distr.
  by rewrite (trimStart_app_space _ _ (forallb_rev _ _ Hr)).
Qed.

(** White space around a text does not change what [trim] returns. *)
Lemma trim_padded (l q r : jsstring) :
  forallb isStrWhiteSpaceChar l = true ->
  forallb isStrWhiteSpaceChar r = true ->
  trim (l ++ q ++ r) = trim q.
Proof.
  intros Hl Hr. unfold trim. rewrite (trimStart_app_space l _ Hl).
  destruct (trimStart q) as [|c s] eqn:Hq.
  - apply trimStart_nil_space in Hq.
    rewrite (trimStart_app_space q r Hq).
    assert (trimStart r = []) as ->; [|done].
    pose proof (trimStart_app_space r [] Hr) as Hall.
    by rewrite app_nil_r in Hall.
  - rewrite trimStart_app_text by (by rewrite Hq).
    rewrite Hq. by apply trimEnd_app_space.
Qed.

(** X6. Both classifiers ignore white space and line terminators around
    the statement: padding a statement on either side with tabs, spaces,
    newlines or any other character that [trim] strips does not change
    its classification. *)
Theorem classification_ignores_padding (l q r : jsstring) :
  forallb isStrWhiteSpaceChar l = true ->
  forallb isStrWhiteSpaceChar r = true ->
  V010.classify (l ++ q ++ r) = V010.classify q /\
  V100.classify (l ++ q ++ r) = V100.classify q.
Proof.
  intros Hl Hr.
  unfold V010.classify, V010.isReadonly, V100.classify, V100.isWriteOperation.
  by rewrite (trim_padded l q r Hl Hr).
Qed.

Lemma classification_ignores_padding_witness :
  V100.classify ([0x0A; 0x09] ++ js "drop table t" ++ [0x20; 0xA0; 0x0D])
  = V100.classify (js "drop table t").
Proof.
  apply (classification_ignores_padding [0x0A; 0x09] (js "drop table t")
           [0x20; 0xA0; 0x0D]); reflexivity.
Defined.

Lemma asciiLower_cases (c : N) :
  (0x41 <= c <= 0x5A /\ asciiLower c = c + 0x20) \/
  (~ (0x41 <= c <= 0x5A) /\ asciiLower c = c).
Proof. unfold asciiLower. unit_ranges; lia. Qed.

Lemma isStrWhiteSpaceChar_asciiLower (c : N) :
  isStrWhiteSpaceChar (asciiLower c) = isStrWhiteSpaceChar c.
Proof.
  destruct (asciiLower_cases c) as [[Hc ->]|[_ ->]]; [|done].
  unfold isStrWhiteSpaceChar, isWhiteSpace, isLineTerminator. unit_ranges.
Qed.

Lemma lowerCaseUnit_asciiLower (c : N) :
  lowerCaseUnit (asciiLower c) = lowerCaseUnit c.
Proof.
  destruct (asciiLower_cases c) as [[Hc ->]|[_ ->]]; [|done].
  unfold lowerCaseUnit. unit_ranges.
Qed.

Lemma canonicalize_asciiLower (c : N) :
  canonicalize true (asciiLower c) = canonicalize true c.
Proof.
  destruct (asciiLower_cases c) as [[Hc ->]|[_ ->]]; [|done].
  unfold canonicalize. unit_ranges.
Qed.

Lemma trimStart_fmap (f : N -> N) (s : jsstring) :
  (forall c, isStrWhiteSpaceChar (f c) = isStrWhiteSpaceChar c) ->
  trimStart (f <$> s) = f <$> trimStart s.
Proof.
  intros Hf. induction s as [|c s IH]; [done|]. cbn [fmap list_fmap trimStart].
  rewrite Hf. by destruct (isStrWhiteSpaceChar c).
Qed.

Lemma rev_fmap (f : N -> N) (s : jsstring) : rev (f <$> s) = f <$> rev s.
Proof.
  induction s as [|c s IH]; [done|]. cbn [fmap list_fmap rev].
  change (list_fmap N N f s) with (f <$> s). by rewrite IH, fmap_app.
Qed.

Lemma trim_fmap (f : N -> N) (s : jsstring) :
  (forall c, isStrWhiteSpaceChar (f c) = isStrWhiteSpaceChar c) ->
  trim (f <$> s) = f <$> trim s.
Proof.
  intros Hf. unfold trim, trimEnd.
  by rewrite (trimStart_fmap f s Hf), rev_fmap, (trimStart_fmap f _ Hf), rev_fmap.
Qed.

Lemma toLowerCase_asciiLower (s : jsstring) :
  toLowerCase (asciiLower <$> s) = toLowerCase s.
Proof.
  unfold toLowerCase. induction s as [|c s IH]; [done|].
  cbn [fmap list_fmap flat_map]. rewrite lowerCaseUnit_asciiLower.
  f_equal. exact IH.
Qed.

Lemma startsWithIgnoreCase_asciiLower (s p : jsstring) :
  startsWithIgnoreCase true (asciiLower <$> s) p = startsWithIgnoreCase true s p.
Proof.
  revert s; induction p as [|a p IH]; intros [|b s]; try done.
  cbn [fmap list_fmap startsWithIgnoreCase].
  rewrite canonicalize_asciiLower. f_equal. apply IH.
Qed.

Lemma space_at_asciiLower (n : nat) (s : jsstring) :
  space_at n (asciiLower <$> s) = space_at n s.
Proof.
  unfold space_at. rewrite <- fmap_drop.
  destruct (drop n s) as [|c t]; [done|]. apply isStrWhiteSpaceChar_asciiLower.
Qed.

Lemma isReadonly_asciiLower (q : jsstring) :
  V010.isReadonly (asciiLower <$> q) = V010.isReadonly q.
Proof.
  unfold V010.isReadonly.
  by rewrite (trim_fmap _ _ isStrWhiteSpaceChar_asciiLower),
    toLowerCase_asciiLower.
Qed.

Lemma isWriteOperation_asciiLower (q : jsstring) :
  V100.isWriteOperation (asciiLower <$> q) = V100.isWriteOperation q.
Proof.
  rewrite !isWriteOperation_keyword_space.
  rewrite (trim_fmap _ _ isStrWhiteSpaceChar_asciiLower).
  unfold begins_with_write_keyword_and_space.
  induction V100.keywords as [|kw kws IH]; [done|]. cbn [existsb].
  by rewrite startsWithIgnoreCase_asciiLower, space_at_asciiLower, IH.
Qed.

(** X7. Both classifiers are insensitive to the case of the ASCII
    letters anywhere in the statement: two statements that are equal once
    their letters [A] to [Z] are made small get the same classification
    from [src/index.ts] and the same from [isWriteOperation]. *)
Theorem classification_ignores_case (q q' : jsstring) :
  asciiLower <$> q = asciiLower <$> q' ->
  V010.classify q = V010.classify q' /\ V100.classify q = V100.classify q'.
Proof.
  intros Hsame. unfold V010.classify, V100.classify.
  rewrite <- (isReadonly_asciiLower q), <- (isReadonly_asciiLower q').
  rewrite <- (isWriteOperation_asciiLower q), <- (isWriteOperation_asciiLower q').
  by rewrite Hsame.
Qed.

Lemma classification_ignores_case_witness :
  V100.classify (js "dRoP tAbLe T") = V100.classify (js "DROP TABLE t").
Proof.
  apply (classification_ignores_case (js "dRoP tAbLe T") (js "DROP TABLE t")).
  reflexivity.
Defined.

Lemma startsWith_first (a b : N) (s p : jsstring) :
  startsWith (a :: s) (b :: p) = true -> b = a.
Proof. simpl. intros [H _]%andb_true_iff. by apply N.eqb_eq. Qed.

(** A statement that the test of [src/index.ts] lets through begins,
    once trimmed, with one of the letters s, S, w, W. *)
Lemma isReadonly_first_unit (q : jsstring) :
  V010.isReadonly q = true ->
  exists c s, trim q = c :: s /\ (c = 0x53 \/ c = 0x73 \/ c = 0x57 \/ c = 0x77).
Proof.
  unfold V010.isReadonly. destruct (trim q) as [|c s]; [discriminate|].
  intros H. exists c, s. split; [done|].
  assert (exists u rest, toLowerCase (c :: s) = u :: rest /\
                         (u = 0x73 \/ u = 0x77)) as (u & rest & Hlow & Hu).
  { destruct (toLowerCase (c :: s)) as [|u rest]; [discriminate|].
    exists u, rest. split; [done|].
    apply orb_true_iff in H as [H|H]; apply startsWith_first in H; auto. }
  unfold toLowerCase in Hlow. cbn [flat_map] in Hlow. unfold lowerCaseUnit in Hlow.
  destruct ((0x41 <=? c) && (c <=? 0x5A)) eqn:Hcap.
  - injection Hlow as Hlow _. lia.
  - destruct (c =? 0x130); [injection Hlow as Hlow _; lia|].
    destruct (c =? 0x212A); injection Hlow as Hlow _; lia.
Qed.

(** X8. The test of [src/index.ts] is the stricter of the two
    classifiers: every statement it classifies as read-only is read-only
    for [isWriteOperation] too, so with writes not allowed the server of
    version 1.0.0 runs every statement that [src/index.ts] runs.  The
    converse fails: [EXPLAIN SELECT 1] is read-only for [isWriteOperation]
    and a write for [src/index.ts]. *)
Theorem whitelist_within_blacklist :
  (forall q, V010.classify q = ReadOnly -> V100.classify q = ReadOnly) /\
  ~ (forall q, V100.classify q = ReadOnly -> V010.classify q = ReadOnly).
Proof.
  split.
  - intros q. unfold V010.classify, V100.classify.
    destruct (V010.isReadonly q) eqn:Hread; [intros _|discriminate].
    rewrite isWriteOperation_keyword_space.
    destruct (isReadonly_first_unit q Hread) as (c & s & Htrim & Hc).
    rewrite Htrim. by destruct Hc as [-> | [-> | [-> | ->]]].
  - intros H. specialize (H (js "EXPLAIN SELECT 1") eq_refl). discriminate H.
Qed.

Lemma whitelist_within_blacklist_witness :
  V100.classify (js "with x as (delete from t returning 1) select 1") = ReadOnly.
Proof.
  apply (proj1 whitelist_within_blacklist). reflexivity.
Defined.

(** ** Reading a resource, server of version 1.0.0 *)

Section ReadResource100.
Context (rt : Runtime).

Lemma issued_sent (st : Statement) (d : DB rt) (w : World rt) :
  issued rt (sent rt st d w) = issued rt w ++ [st].
Proof. reflexivity. Qed.

Lemma V100_ReadResource_invalid (uri : jsstring) (w : World rt) :
  V100.match_table_uri uri = None ->
  V100.ReadResource rt uri w
  = (inl (Error (js "Invalid resource URI: " ++ uri)), w).
Proof. intros H. unfold V100.ReadResource. by rewrite H. Qed.

(** What [readResource] sends, in every case. *)
Lemma V100_ReadResource_sent (uri : jsstring) (w : World rt) :
  sent_during (V100.ReadResource rt uri) w = [] \/
  sent_during (V100.ReadResource rt uri) w = [SelectPublicBaseTablesOrdered] \/
  exists t, V100.match_table_uri uri = Some t /\
    sent_during (V100.ReadResource rt uri) w
    = [SelectPublicBaseTablesOrdered; SelectSample t 100].
Proof.
  destruct (V100.match_table_uri uri) as [t|] eqn:Huri.
  - rewrite (sent_during_sent rt _ w
               (if match pg_tables rt (db rt w) with
                   | inr rows => includes (public_base_tables_ordered rows) t
                   | inl _ => false
                   end
                then [SelectPublicBaseTablesOrdered; SelectSample t 100]
                else [SelectPublicBaseTablesOrdered])).
    + destruct (pg_tables rt (db rt w)) as [m|rows]; [by right; left|].
      destruct (includes _ t); [right; right; by exists t | by right; left].
    + rewrite (V100_ReadResource rt uri t w Huri). cbv zeta.
      destruct (pg_tables rt (db rt w)) as [m|rows]; [done|].
      destruct (includes _ t); [|done].
      cbn [snd]. by rewrite !issued_sent, <- app_assoc.
  - left. apply sent_during_sent.
    by rewrite (V100_ReadResource_invalid uri w Huri), app_nil_r.
Qed.

End ReadResource100.

(** X9. The server of version 1.0.0 accepts a resource URI only when it
    is [table:///] followed by a name that is not empty and has no line
    terminator; for every other URI [readResource] throws [Invalid
    resource URI] with the URI in the message, and sends nothing to the
    database. *)
Theorem invalid_uri_rejected (rt : Runtime) (uri : jsstring) (w : World rt) :
  (forall t, uri = js "table:///" ++ t ->
     t = [] \/ exists c, c ∈ t /\ isLineTerminator c = true) ->
  V100.ReadResource rt uri w
  = (inl (Error (js "Invalid resource URI: " ++ uri)), w).
Proof.
  intros Hbad. apply V100_ReadResource_invalid.
  destruct (V100.match_table_uri uri) as [t|] eqn:Huri; [|done].
  apply match_table_uri_Some in Huri as (Hu & Hne & Hlt).
  destruct (Hbad t Hu) as [->|(c & Hc & Hterm)]; [done|].
  by rewrite (Hlt c Hc) in Hterm.
Qed.

Lemma invalid_uri_rejected_witness :
  V100.ReadResource Demo.rt (js "postgres://table/users") Demo.online
  = (inl (Error (js "Invalid resource URI: postgres://table/users")),
     Demo.online).
Proof.
  apply (invalid_uri_rejected Demo.rt (js "postgres://table/users")
           Demo.online).
  intros t Ht. vm_compute in Ht. discriminate Ht.
Defined.

(** X10. Every error that [readResource] of the server of version 1.0.0
    throws for an accepted URI [table:///t] is an [Error] whose message
    is [Error reading table t: ] followed by the cause: the message of
    the database when the catalog statement or the sample statement
    fails, or [Table not found: t]. *)
Theorem read_errors_are_wrapped (rt : Runtime) (uri t : jsstring)
    (w : World rt) (e : Exn) :
  uri = js "table:///" ++ t -> t <> [] ->
  (forall c, c ∈ t -> isLineTerminator c = false) ->
  (V100.ReadResource rt uri w).1 = inl e ->
  exists m,
    e = Error (js "Error reading table " ++ t ++ js ": " ++ m) /\
    (pg_tables rt (db rt w) = inl m \/
     m = js "Table not found: " ++ t \/
     pg_sample rt t 100 (db rt w) = inl m).
Proof.
  intros Hu Hne Hlt.
  assert (Huri : V100.match_table_uri uri = Some t)
    by (by apply match_table_uri_Some).
  rewrite (V100_ReadResource rt uri t w Huri). cbv zeta.
  destruct (pg_tables rt (db rt w)) as [m|rows].
  - intros [= <-]. exists m. auto.
  - destruct (includes _ t).
    + destruct (pg_sample rt t 100 (db rt w)) as [m|sample] eqn:Hs;
        [|discriminate].
      intros [= <-]. exists m. auto.
    + intros [= <-]. eexists. split; [reflexivity|]. auto.
Qed.

Lemma read_errors_are_wrapped_witness :
  exists m,
    Error (js "Error reading table users: connection terminated")
    = Error (js "Error reading table " ++ js "users" ++ js ": " ++ m) /\
    (pg_tables Demo.rt (db Demo.rt Demo.offline) = inl m \/
     m = js "Table not found: " ++ js "users" \/
     pg_sample Demo.rt (js "users") 100 (db Demo.rt Demo.offline) = inl m).
Proof.
  apply (read_errors_are_wrapped Demo.rt (js "table:///users") (js "users")
           Demo.offline).
  - reflexivity.
  - discriminate.
  - intros c Hc. apply list_elem_of_In in Hc. simpl in Hc.
    repeat (destruct Hc as [<-|Hc]; [reflexivity|]). destruct Hc.
  - vm_compute. reflexivity.
Defined.

(** *** The identifier of the sample statement *)








(** ** Reading a resource, [src/index.ts] *)

Section ReadResource010.
Context (rt : Runtime).

Lemma V010_ReadResource_rejected (uri : jsstring) (w : World rt) :
  match new_URL rt uri with
  | inl e => V010.ReadResource rt uri w = (inl e, w)
  | inr url =>
      protocol url <> js "postgres:" ->
      V010.ReadResource rt uri w
      = (inl (Error (js "Unsupported protocol: " ++ protocol url)), w)
  end.
Proof.
  unfold V010.ReadResource. destruct (new_URL rt uri) as [e|url]; [done|].
  intros Hp. by rewrite bool_decide_eq_false_2.
Qed.

(** What the handler sends, in every case. *)
Lemma V010_ReadResource_sent (uri : jsstring) (w : World rt) :
  sent_during (V010.ReadResource rt uri) w = [] \/
  exists url, new_URL rt uri = inr url /\
    (sent_during (V010.ReadResource rt uri) w
     = [SelectColumns (V010.tableName_of url)] \/
     sent_during (V010.ReadResource rt uri) w
     = [SelectColumns (V010.tableName_of url);
        SelectSample (V010.tableName_of url) 10]).
Proof.
  pose proof (V010_ReadResource_rejected uri w) as Hrej.
  destruct (new_URL rt uri) as [e|url] eqn:Hurl.
  - left. apply sent_during_sent. by rewrite Hrej, app_nil_r.
  - destruct (decide (protocol url = js "postgres:")) as [Hp|Hp].
    + right. exists url. split; [done|].
      pose proof (V010_ReadResource rt uri url w Hurl Hp) as Hrun.
      cbv zeta in Hrun.
      destruct (pg_columns rt _ (db rt w)) as [m|columns].
      * left. apply sent_during_sent. by rewrite Hrun.
      * right. apply sent_during_sent. rewrite Hrun. cbn [snd].
        by rewrite !issued_sent, <- app_assoc.
    + left. apply sent_during_sent. by rewrite (Hrej Hp), app_nil_r.
Qed.

Lemma tableName_of_table_path (url : URL) (t : jsstring) :
  pathname url = js "/table/" ++ t -> V010.tableName_of url = t.
Proof.
  intros Hp. unfold V010.tableName_of, regex_remove.
  rewrite rmatch_lit, startsWithIgnoreCase_false, Hp, startsWith_app.
  by rewrite drop_app_length.
Qed.

End ReadResource010.

(** X12. The resource handlers send only their fixed [SELECT] statements
    and never [sql.unsafe].  [readResource] of the server of version
    1.0.0 sends the catalog statement and samples with the limit 100;
    [readResource] of [src/index.ts] sends the column statement and
    samples with the limit 10; the limit does not depend on the request.
    [listResources] sends the catalog statement of its server and nothing
    else. *)
Theorem resource_statements_are_fixed (rt : Runtime) (uri : jsstring)
    (w : World rt) (s : Statement) :
  (s ∈ sent_during (V100.ReadResource rt uri) w ->
   s = SelectPublicBaseTablesOrdered \/ exists t, s = SelectSample t 100) /\
  (s ∈ sent_during (V010.ReadResource rt uri) w ->
   exists t, s = SelectColumns t \/ s = SelectSample t 10) /\
  (s ∈ sent_during (V100.ListResources rt) w ->
   s = SelectPublicBaseTablesOrdered) /\
  (s ∈ sent_during (V010.ListResources rt) w -> s = SelectPublicTables).
Proof.
  split; [|split; [|split]].
  - destruct (V100_ReadResource_sent rt uri w) as [->|[->|(t & _ & ->)]].
    + intros H. by apply not_elem_of_nil in H.
    + intros ->%list_elem_of_singleton. by left.
    + intros [->| ->%list_elem_of_singleton]%elem_of_cons; [by left|].
      right. by exists t.
  - destruct (V010_ReadResource_sent rt uri w) as [->|(url & _ & [->| ->])].
    + intros H. by apply not_elem_of_nil in H.
    + intros ->%list_elem_of_singleton. eexists. by left.
    + intros [->| ->%list_elem_of_singleton]%elem_of_cons; eexists; eauto.
  - rewrite (sent_during_sent rt _ w [SelectPublicBaseTablesOrdered]).
    + by intros ->%list_elem_of_singleton.
    + rewrite V100_ListResources. by destruct (pg_tables rt (db rt w)).
  - rewrite (sent_during_sent rt _ w [SelectPublicTables]).
    + by intros ->%list_elem_of_singleton.
    + by rewrite V010_ListResources.
Qed.

Lemma resource_statements_are_fixed_witness :
  SelectSample (js "users") 100 = SelectPublicBaseTablesOrdered \/
  exists t, SelectSample (js "users") 100 = SelectSample t 100.
Proof.
  apply (proj1 (resource_statements_are_fixed Demo.rt (js "table:///users")
                  Demo.online (SelectSample (js "users") 100))).
  assert (sent_during (V100.ReadResource Demo.rt (js "table:///users"))
            Demo.online
          = [SelectPublicBaseTablesOrdered; SelectSample (js "users") 100])
    as -> by (vm_compute; reflexivity).
  apply list_elem_of_further, list_elem_of_here.
Defined.

(** X13. [readResource] of [src/index.ts] rejects a URI before it
    touches the database: when [new URL] throws, its error leaves the
    handler, and when the URL has a protocol other than [postgres:] the
    handler throws [Unsupported protocol] with that protocol; in both
    cases nothing is sent. *)
Theorem unsupported_uri_rejected (rt : Runtime) (uri : jsstring)
    (w : World rt) :
  (forall e, new_URL rt uri = inl e ->
     V010.ReadResource rt uri w = (inl e, w)) /\
  (forall url, new_URL rt uri = inr url -> protocol url <> js "postgres:" ->
     V010.ReadResource rt uri w
     = (inl (Error (js "Unsupported protocol: " ++ protocol url)), w)).
Proof.
  pose proof (V010_ReadResource_rejected rt uri w) as Hrej.
  split.
  - intros e He. by rewrite He in Hrej.
  - intros url Hurl Hp. rewrite Hurl in Hrej. by apply Hrej.
Qed.

Lemma unsupported_uri_rejected_witness :
  V010.ReadResource Demo.rt (js "users") Demo.online
  = (inl (TypeError (js "Invalid URL")), Demo.online) /\
  V010.ReadResource Demo.rt (js "table:///users") Demo.online
  = (inl (Error (js "Unsupported protocol: table:")), Demo.online).
Proof.
  split.
  - apply (proj1 (unsupported_uri_rejected Demo.rt (js "users") Demo.online)).
    reflexivity.
  - apply (proj2 (unsupported_uri_rejected Demo.rt (js "table:///users")
                    Demo.online)
             {| protocol := js "table:"; pathname := js "/users" |}).
    + reflexivity.
    + discriminate.
Defined.

(** X14. [readResource] of [src/index.ts] reads the table name from a
    path of the shape [/table/name]: for every URL with the protocol
    [postgres:] and such a path, the column statement is sent for [name],
    then, when it succeeds, the sample statement for [name]; an error of
    either statement leaves the handler as it is, and when both succeed
    the result is one JSON document of schema and sample under the
    requested URI. *)
Theorem read_010_of_table_path (rt : Runtime) (uri : jsstring) (url : URL)
    (t : jsstring) (w : World rt) :
  new_URL rt uri = inr url ->
  protocol url = js "postgres:" ->
  pathname url = js "/table/" ++ t ->
  (forall m, pg_columns rt t (db rt w) = inl m ->
     (V010.ReadResource rt uri w).1 = inl (PostgresError m) /\
     sent_during (V010.ReadResource rt uri) w = [SelectColumns t]) /\
  (forall columns, pg_columns rt t (db rt w) = inr columns ->
     sent_during (V010.ReadResource rt uri) w
     = [SelectColumns t; SelectSample t 10] /\
     (forall m, pg_sample rt t 10 (db rt w) = inl m ->
        (V010.ReadResource rt uri w).1 = inl (PostgresError m)) /\
     (forall sample, pg_sample rt t 10 (db rt w) = inr sample ->
        (V010.ReadResource rt uri w).1
        = inr [ {| rc_uri := uri;
                   rc_mimeType := js "application/json";
                   rc_text :=
                     JSON_stringify_schema_sample rt columns sample |} ])).
Proof.
  intros Hurl Hproto Hpath.
  pose proof (V010_ReadResource rt uri url w Hurl Hproto) as Hrun.
  cbv zeta in Hrun. rewrite (tableName_of_table_path url t Hpath) in Hrun.
  split.
  - intros m Hm. rewrite Hm in Hrun. split; [by rewrite Hrun|].
    apply sent_during_sent. by rewrite Hrun.
  - intros columns Hc. rewrite Hc in Hrun. split; [|split].
    + apply sent_during_sent. rewrite Hrun. cbn [snd].
      by rewrite !issued_sent, <- app_assoc.
    + intros m Hm. by rewrite Hrun, Hm.
    + intros sample Hs. by rewrite Hrun, Hs.
Qed.

Lemma read_010_of_table_path_witness :
  sent_during (V010.ReadResource Demo.rt (js "postgres://db/table/users"))
    Demo.online
  = [SelectColumns (js "users"); SelectSample (js "users") 10].
Proof.
  destruct (read_010_of_table_path Demo.rt (js "postgres://db/table/users")
              {| protocol := js "postgres:"; pathname := js "/table/users" |}
              (js "users") Demo.online eq_refl eq_refl eq_refl) as [_ Hok].
  exact (proj1 (Hok [] eq_refl)).
Defined.

(** X15. With the parser of the URL Standard for [new URL], the server
    of [src/index.ts] cannot read the resources it lists: for every table
    name of letters, digits and underscores, [readResource] on the URI
    that [listResources] builds for it sends its statements for the name
    with a slash before it, never for the name itself. *)
Theorem listed_resource_010_reads_other_name (rt : Runtime) (t : jsstring)
    (w : World rt) (s : Statement) :
  new_URL rt = whatwg_URL ->
  forallb isPlain t = true ->
  let uri := res_uri (V010.resource_of (Build_NameRow t)) in
  SelectColumns (0x2F :: t) ∈ sent_during (V010.ReadResource rt uri) w /\
  (s ∈ sent_during (V010.ReadResource rt uri) w ->
   (s = SelectColumns (0x2F :: t) \/ s = SelectSample (0x2F :: t) 10) /\
   s <> SelectColumns t /\ forall limit, s <> SelectSample t limit).
Proof.
  intros Hparser Ht uri.
  destruct (uri_010_reads_back_with_slash t Ht) as (Hurl & Hname & Hne).
  fold uri in Hurl. rewrite <- Hparser in Hurl.
  assert (Hsent :
    sent_during (V010.ReadResource rt uri) w = [SelectColumns (0x2F :: t)] \/
    sent_during (V010.ReadResource rt uri) w
    = [SelectColumns (0x2F :: t); SelectSample (0x2F :: t) 10]).
  { destruct (V010_ReadResource_sent rt uri w) as [Hnil|(url & Hu & Hs)].
    - pose proof (V010_ReadResource rt uri _ w Hurl eq_refl) as Hrun.
      cbv zeta in Hrun. unfold sent_during in Hnil. rewrite Hrun in Hnil.
      destruct (pg_columns rt _ (db rt w)); cbn [snd] in Hnil;
        rewrite ?issued_sent, <- ?app_assoc, drop_app_length in Hnil;
        discriminate Hnil.
    - rewrite Hurl in Hu. injection Hu as <-. by rewrite Hname in Hs. }
  assert (Hin : s ∈ sent_during (V010.ReadResource rt uri) w ->
                s = SelectColumns (0x2F :: t) \/
                s = SelectSample (0x2F :: t) 10).
  { destruct Hsent as [-> | ->].
    - intros ->%list_elem_of_singleton. by left.
    - intros [->| ->%list_elem_of_singleton]%elem_of_cons; auto. }
  split.
  - destruct Hsent as [-> | ->]; apply list_elem_of_here.
  - intros Hs. split; [by apply Hin|].
    destruct (Hin Hs) as [-> | ->]; split; try discriminate.
    + intros [= Heq]. by apply Hne.
    + intros limit [= Heq _]. by apply Hne.
Qed.

Lemma listed_resource_010_reads_other_name_witness :
  SelectColumns (js "/users")
  ∈ sent_during (V010.ReadResource Demo.rt (js "postgres://table/users"))
      Demo.online.
Proof.
  exact (proj1 (listed_resource_010_reads_other_name Demo.rt (js "users")
                  Demo.online SelectPublicTables eq_refl eq_refl)).
Defined.

(** ** Listing *)

(** X16. [listResources] of the server of version 1.0.0 never throws: in
    every state of the database it sends the catalog statement once and
    returns a list of resources.  Every resource of the list has the
    table name as its name, [table:///] followed by that name as its URI,
    and the MIME type [application/json]. *)
Theorem listing_100_always_returns (rt : Runtime) (w : World rt) :
  exists resources,
    (V100.ListResources rt w).1 = inr resources /\
    sent_during (V100.ListResources rt) w = [SelectPublicBaseTablesOrdered] /\
    forall res, res ∈ resources ->
      res_uri res = js "table:///" ++ res_name res /\
      res_description res = js "PostgreSQL table: " ++ res_name res /\
      res_mimeType res = js "application/json".
Proof.
  assert (Hsent : sent_during (V100.ListResources rt) w
                  = [SelectPublicBaseTablesOrdered]).
  { apply sent_during_sent. rewrite V100_ListResources.
    by destruct (pg_tables rt (db rt w)). }
  rewrite V100_ListResources in *.
  destruct (pg_tables rt (db rt w)) as [m|rows].
  - exists []. split; [done|]. split; [done|].
    intros res Hres. by apply not_elem_of_nil in Hres.
  - eexists. split; [done|]. split; [done|].
    by intros res (t & -> & _)%list_elem_of_fmap.
Qed.



Lemma listing_100_always_returns_witness :
  exists resources,
    (V100.ListResources Demo.rt Demo.offline).1 = inr resources /\
    sent_during (V100.ListResources Demo.rt) Demo.offline
    = [SelectPublicBaseTablesOrdered].
Proof.
  destruct (listing_100_always_returns Demo.rt Demo.offline)
    as (resources & Hret & Hsent & _).
  by exists resources.
Defined.
